(** * graphql-http: the Node request listener ([src/use/node.ts])

    A shallow embedding of [createHandler] and of the [requestListener]
    closure it returns, together with the parts of the JavaScript runtime
    the listener talks to: thrown values, [JSON.stringify], the inbound
    [IncomingMessage] stream, the outgoing [ServerResponse] and the
    console.  The protocol handler of [../handler] is an external
    collaborator; it is modelled as an arbitrary script of interactions
    with the request descriptor it is given.

    Conventions.  A string is a sequence of UTF-16 code units below 256
    (one per [ascii]).  A number is a safe integer.  A body chunk is the
    text that [body += chunk] appends for it.  The host objects behave
    as Node's [http] module does.  [writeHead] throws a [RangeError] for
    a status code that is outside 100..999 after [statusCode |= 0]; it
    then stores the reason phrase and the status code on the response
    and only afterwards throws a [TypeError] for a reason phrase, a
    header name or a header value with forbidden characters, or for a
    [Trailer] header on a message that is not chunked, so that a refused
    call leaves the stored phrase behind; [end] with a string (or
    nothing) does not throw.  The client speaks HTTP/1.1.  Every value
    is one that [console.error] can print.  A readable stream emits its chunks
    only while a ['data'] listener is attached, and ['end'] once, after
    the last chunk.  The handler runs as one sequential [async]
    computation. *)

From Stdlib Require Import String Ascii List ZArith Bool Lia DecimalString.
Import ListNotations.
Local Open Scope string_scope.
Local Open Scope Z_scope.

Set Implicit Arguments.
Set Warnings "-register-all".

(** ** Numbers *)

Module Number.

Definition MAX_SAFE_INTEGER : Z := 2 ^ 53 - 1.

(** [Number.isSafeInteger] on an integer. *)
Definition isSafeInteger (n : Z) : bool :=
  (- MAX_SAFE_INTEGER <=? n) && (n <=? MAX_SAFE_INTEGER).

(** The numbers of the model: the safe integers, each of which is a
    double and prints as its decimal digits. *)
Record t : Type := make {
  value : Z;
  safe : isSafeInteger value = true
}.

(** [String(n)] *)
Definition toString (n : t) : string :=
  NilZero.string_of_int (Z.to_int (value n)).

(** [n | 0]: the number wrapped into 32 signed bits. *)
Definition toInt32 (n : t) : Z :=
  (value n + 2 ^ 31) mod 2 ^ 32 - 2 ^ 31.

End Number.

(** ** JavaScript values *)

(** The values a handler can throw or reject with, and the values handed
    to [JSON.stringify].  [JSError] is an object for which
    [err instanceof Error] holds, with its [message] and its (engine
    provided, possibly absent) [stack], and without enumerable
    properties of its own when it sits inside an array or an object;
    [JSObject] lists the own enumerable properties of a plain object in
    enumeration order.  Every
    other value that is not an error object is told by what
    [JSON.stringify] makes of it: [JSOpaque] stands for a value that
    serialises to the given text (a fraction, [NaN], a date, an object
    with [toJSON]) or to [undefined] (a function, a symbol), and
    [JSUnserialisable] for one whose serialisation throws the given
    value (a cyclic object, a throwing [toJSON]). *)
Inductive JSValue : Type :=
| JSUndefined
| JSNull
| JSBool (b : bool)
| JSNumber (n : Number.t)
| JSBigInt (n : Z)
| JSString (s : string)
| JSError (message : string) (stack : option string)
| JSArray (items : list JSValue)
| JSObject (props : list (string * JSValue))
| JSOpaque (json : option string)
| JSUnserialisable (thrown : JSValue).

(** [err instanceof Error] *)
Definition instanceof_Error (v : JSValue) : bool :=
  match v with
  | JSError _ _ => true
  | _ => false
  end.

(** ** JSON.stringify *)

Module JSON.

(** The double quote and the backslash, by character code. *)
Definition dquote : string := String "034"%char EmptyString.
Definition backslash : string := String "092"%char EmptyString.

Definition hex_digit (n : nat) : ascii :=
  nth n (list_ascii_of_string "0123456789abcdef") "0"%char.

(** QuoteJSONString on one character: the quote, the backslash and the
    control characters are escaped, everything else is kept. *)
Definition escape_char (c : ascii) : string :=
  let n := nat_of_ascii c in
  if Nat.eqb n 34 then backslash ++ dquote
  else if Nat.eqb n 92 then backslash ++ backslash
  else if Nat.eqb n 8 then backslash ++ "b"
  else if Nat.eqb n 9 then backslash ++ "t"
  else if Nat.eqb n 10 then backslash ++ "n"
  else if Nat.eqb n 12 then backslash ++ "f"
  else if Nat.eqb n 13 then backslash ++ "r"
  else if Nat.ltb n 32 then
    backslash ++ "u00"
      ++ String (hex_digit (Nat.div n 16)) (String (hex_digit (Nat.modulo n 16)) EmptyString)
  else String c EmptyString.

Fixpoint escape (s : string) : string :=
  match s with
  | EmptyString => EmptyString
  | String c rest => escape_char c ++ escape rest
  end.

Definition quote (s : string) : string := dquote ++ escape s ++ dquote.

(** What a serialisation throws: a [TypeError] the engine makes with
    the given message, or a value thrown by the code of the value that
    is serialised. *)
Inductive Exception : Type :=
| EngineTypeError (message : string)
| UserValue (v : JSValue).

(** The three results of SerializeJSONProperty: a text, [undefined]
    (the property is left out of an object and printed as [null] in an
    array), or a throw. *)
Inductive Serialized : Type :=
| Text (s : string)
| Omitted
| Raises (thrown : Exception).

Fixpoint join (sep : string) (parts : list string) : string :=
  match parts with
  | [] => ""
  | [p] => p
  | p :: rest => p ++ sep ++ join sep rest
  end.

Fixpoint serialize (v : JSValue) : Serialized :=
  match v with
  | JSUndefined => Omitted
  | JSNull => Text "null"
  | JSBool true => Text "true"
  | JSBool false => Text "false"
  | JSNumber n => Text (Number.toString n)
  | JSBigInt _ => Raises (EngineTypeError "Do not know how to serialize a BigInt")
  | JSString s => Text (quote s)
  | JSError _ _ => Text "{}"
  | JSOpaque (Some text) => Text text
  | JSOpaque None => Omitted
  | JSUnserialisable thrown => Raises (UserValue thrown)
  | JSArray items =>
      let fix elements (xs : list JSValue) : Exception + list string :=
        match xs with
        | [] => inr []
        | x :: rest =>
            match serialize x with
            | Raises thrown => inl thrown
            | Omitted =>
                match elements rest with
                | inl thrown => inl thrown
                | inr parts => inr ("null" :: parts)
                end
            | Text t =>
                match elements rest with
                | inl thrown => inl thrown
                | inr parts => inr (t :: parts)
                end
            end
        end in
      match elements items with
      | inr parts => Text ("[" ++ join "," parts ++ "]")
      | inl thrown => Raises thrown
      end
  | JSObject props =>
      let fix members (ps : list (string * JSValue)) : Exception + list string :=
        match ps with
        | [] => inr []
        | (k, x) :: rest =>
            match serialize x with
            | Raises thrown => inl thrown
            | Omitted => members rest
            | Text t =>
                match members rest with
                | inl thrown => inl thrown
                | inr parts => inr ((quote k ++ ":" ++ t) :: parts)
                end
            end
        end in
      match members props with
      | inr parts => Text ("{" ++ join "," parts ++ "}")
      | inl thrown => Raises thrown
      end
  end.

(** [JSON.stringify(value)]: the returned string, [undefined] for a
    value that has no JSON text, or a throw. *)
Definition stringify (v : JSValue) : Serialized := serialize v.

End JSON.

(** ** The inbound request: [http.IncomingMessage] *)

Definition Headers : Type := list (string * string).

Module IncomingMessage.

(** What one invocation of the descriptor's [body] accessor leaves
    behind: the closure variable [let body = ''] that its ['data']
    listener appends to, and the state of the promise its ['end']
    listener resolves. *)
Record Subscription : Type := {
  buffer : string;
  resolved : option string
}.

(** [url] and [method] are optional on [IncomingMessage].  The body is
    a readable stream: [pending] holds the chunks still to be emitted
    in arrival order (each as the text [body += chunk] appends),
    [emitted] the chunks already handed to the listeners, [ended]
    whether ['end'] was emitted, and [subscriptions] the listeners
    registered so far. *)
Record t : Type := {
  url : option string;
  method : option string;
  headers : Headers;
  pending : list string;
  emitted : list string;
  ended : bool;
  subscriptions : list Subscription
}.

(** A request as the host hands it to the listener: nothing emitted,
    nobody listening. *)
Definition incoming (u m : option string) (h : Headers) (chunks : list string) : t :=
  {| url := u; method := m; headers := h;
     pending := chunks; emitted := []; ended := false; subscriptions := [] |}.

Definition with_stream (r : t) (p e : list string) (fin : bool) (subs : list Subscription) : t :=
  {| url := url r; method := method r; headers := headers r;
     pending := p; emitted := e; ended := fin; subscriptions := subs |}.

(** The ['data'] listener: [(chunk) => (body += chunk)]. *)
Definition on_data (chunk : string) (s : Subscription) : Subscription :=
  {| buffer := buffer s ++ chunk; resolved := resolved s |}.

(** The ['end'] listener: [() => resolve(body)]; resolving a promise
    that is already resolved does nothing. *)
Definition on_end (s : Subscription) : Subscription :=
  {| buffer := buffer s;
     resolved := match resolved s with
                 | Some v => Some v
                 | None => Some (buffer s)
                 end |}.

(** What a ['data'] listener holds once the chunks [cs] were emitted
    to it. *)
Definition fed (cs : list string) (s : Subscription) : Subscription :=
  {| buffer := buffer s ++ String.concat "" cs; resolved := resolved s |}.

(** A readable stream flows once a ['data'] listener is attached. *)
Definition flowing (r : t) : bool :=
  match subscriptions r with
  | [] => false
  | _ :: _ => true
  end.

(** One turn of the event loop on the stream: a paused or ended
    stream emits nothing; a flowing one emits its next chunk to every
    ['data'] listener, or ['end'] to every ['end'] listener when no
    chunk is left. *)
Definition deliver (r : t) : t :=
  if ended r then r
  else if negb (flowing r) then r
  else match pending r with
       | chunk :: rest =>
           with_stream r rest (emitted r ++ [chunk]) false
             (map (on_data chunk) (subscriptions r))
       | [] =>
           with_stream r [] (emitted r) true (map on_end (subscriptions r))
       end.

(** The event loop run until the stream has nothing more to emit. *)
Fixpoint deliver_all (turns : nat) (r : t) : t :=
  match turns with
  | O => r
  | S n => deliver_all n (deliver r)
  end.

Definition drain (r : t) : t := deliver_all (S (length (pending r))) r.

(** The state of the [p]-th promise created by [body]. *)
Definition promise (r : t) (p : nat) : option string :=
  match nth_error (subscriptions r) p with
  | Some s => resolved s
  | None => None
  end.

End IncomingMessage.

(** ** The outgoing response: [http.ServerResponse] *)

Module ServerResponse.

(** The reason phrase of a status line: one given by the caller, or the
    entry of [http.STATUS_CODES] for a status code (['unknown'] when
    the table has none).  The table's phrases are not spelled out; all
    of them are non-empty and free of forbidden characters. *)
Inductive Phrase : Type :=
| Given (text : string)
| Standard (status : Z).

(** The status line and the headers that [writeHead] wrote. *)
Record Head : Type := {
  statusCode : Z;
  statusMessage : Phrase;
  headers : option Headers
}.

(** [stored_statusCode] and [stored_statusMessage] are the response's
    [statusCode] and [statusMessage] properties; [head] is the status
    line and headers written, if any; [ended] lists the data argument of
    every [end] call, in order. *)
Record t : Type := {
  stored_statusCode : Z;
  stored_statusMessage : option Phrase;
  head : option Head;
  ended : list (option string)
}.

Definition fresh : t :=
  {| stored_statusCode := 200; stored_statusMessage := None; head := None; ended := [] |}.

(** [checkInvalidHeaderChar] on one code unit: the tab, 0x20..0x7E and
    0x80..0xFF pass. *)
Definition header_char (c : ascii) : bool :=
  let n := nat_of_ascii c in
  Nat.eqb n 9 || (Nat.leb 32 n && Nat.leb n 126) || Nat.leb 128 n.

(** Characters of an HTTP token (a header name). *)
Definition token_char (c : ascii) : bool :=
  let n := nat_of_ascii c in
  (Nat.leb 48 n && Nat.leb n 57) || (Nat.leb 65 n && Nat.leb n 90)
  || (Nat.leb 97 n && Nat.leb n 122)
  || existsb (Nat.eqb n) [33; 35; 36; 37; 38; 39; 42; 43; 45; 46; 94; 95; 96; 124; 126]%nat.

Definition valid_name (name : string) : bool :=
  match list_ascii_of_string name with
  | [] => false
  | chars => forallb token_char chars
  end.

Definition valid_text (text : string) : bool :=
  forallb header_char (list_ascii_of_string text).

Definition valid_header (h : string * string) : bool :=
  valid_name (fst h) && valid_text (snd h).

Definition valid_headers (hs : option Headers) : bool :=
  match hs with
  | Some fields => forallb valid_header fields
  | None => true
  end.

Definition valid_status (status : Z) : bool :=
  (100 <=? status) && (status <=? 999).

Definition valid_phrase (phrase : Phrase) : bool :=
  match phrase with
  | Given text => valid_text text
  | Standard _ => true
  end.

(** [!phrase] is false: only the empty string is falsy. *)
Definition truthy_phrase (phrase : Phrase) : bool :=
  match phrase with
  | Given EmptyString => false
  | _ => true
  end.

(** A head whose status code, reason phrase and headers pass the
    tests [writeHead] makes on each of them. *)
Definition valid_head (h : Head) : bool :=
  valid_status (statusCode h) && valid_phrase (statusMessage h) && valid_headers (headers h).

(** The reason phrase [writeHead] stores: the one given, else the one
    the response already has, else the standard one for the status. *)
Definition reason_phrase (status : Z) (reason : option string) (response : t) : Phrase :=
  match reason with
  | Some text => Given text
  | None =>
      match stored_statusMessage response with
      | Some phrase => if truthy_phrase phrase then phrase else Standard status
      | None => Standard status
      end
  end.

(** The message of the error thrown for the first header that is
    refused, if any: its name is tested before its value. *)
Definition header_refusal (hs : option Headers) : option string :=
  match find (fun header => negb (valid_header header))
             (match hs with Some fields => fields | None => [] end) with
  | Some (name, _) =>
      Some (if valid_name name
            then "Invalid character in header content ["
                   ++ JSON.dquote ++ name ++ JSON.dquote ++ "]"
            else "Header name must be a valid HTTP token ["
                   ++ JSON.dquote ++ name ++ JSON.dquote ++ "]")
  | None => None
  end.

(** [name.toLowerCase()] on the letters A..Z; the other code units that
    change case do not come out as these letters. *)
Definition lower (c : ascii) : ascii :=
  let n := nat_of_ascii c in
  if Nat.leb 65 n && Nat.leb n 90 then ascii_of_nat (n + 32) else c.

Definition lowercase (text : string) : list ascii :=
  map lower (list_ascii_of_string text).

(** [\w] of a regular expression. *)
Definition word_char (c : ascii) : bool :=
  let n := nat_of_ascii c in
  (Nat.leb 48 n && Nat.leb n 57) || (Nat.leb 65 n && Nat.leb n 90)
  || (Nat.leb 97 n && Nat.leb n 122) || Nat.eqb n 95.

(** What is left of [chars] after the prefix [pattern], if it starts
    with it. *)
Fixpoint after_prefix (pattern chars : list ascii) : option (list ascii) :=
  match pattern, chars with
  | [], rest => Some rest
  | x :: pattern', c :: chars' =>
      if Ascii.eqb x c then after_prefix pattern' chars' else None
  | _ :: _, [] => None
  end.

(** The search of [/(?:^|\W)chunked(?:$|\W)/i] in a lower-cased value,
    from a position whose previous character is a word character or
    not. *)
Fixpoint chunked_from (after_word : bool) (chars : list ascii) : bool :=
  match chars with
  | [] => false
  | c :: rest =>
      (negb after_word
       && match after_prefix (list_ascii_of_string "chunked") chars with
          | Some [] => true
          | Some (next :: _) => negb (word_char next)
          | None => false
          end)
      || chunked_from (word_char c) rest
  end.

Definition mentions_chunked (value : string) : bool :=
  chunked_from false (lowercase value).

(** Whether the headers have a field of the given lower-case name. *)
Definition has_field (name : string) (hs : option Headers) : bool :=
  existsb (fun header => String.eqb (string_of_list_ascii (lowercase (fst header))) name)
          (match hs with Some fields => fields | None => [] end).

Definition chunked_by_header (hs : option Headers) : bool :=
  existsb (fun header =>
             String.eqb (string_of_list_ascii (lowercase (fst header))) "transfer-encoding"
             && mentions_chunked (snd header))
          (match hs with Some fields => fields | None => [] end).

(** Statuses whose responses have no body. *)
Definition bodiless_status (status : Z) : bool :=
  (status =? 204) || (status =? 304) || ((100 <=? status) && (status <=? 199)).

(** Whether the message that a first [writeHead] frames is chunked: a
    [Transfer-Encoding: chunked] header makes it so, unless the status
    is 204 or 304; without [Transfer-Encoding] and [Content-Length]
    headers it is chunked exactly when it has a body, which a response
    to a HEAD request and one with a bodiless status have not. *)
Definition chunked (head_request : bool) (status : Z) (hs : option Headers) : bool :=
  if negb (has_field "content-length" hs) && negb (has_field "transfer-encoding" hs)
  then negb head_request && negb (bodiless_status status)
  else chunked_by_header hs && negb ((status =? 204) || (status =? 304)).

(** A [Trailer] header on a message that is not chunked is refused. *)
Definition trailer_refused (head_request : bool) (status : Z) (hs : option Headers) : bool :=
  has_field "trailer" hs && negb (chunked head_request status hs).

(** [writeHead(statusCode, reason, headers)] on a response to a request
    whose method is HEAD or not: the message of the error it throws, if
    it throws, and the response it leaves.  The two-argument call
    [writeHead(statusCode, headers)] is the call with no reason.  The
    framing of the message is that of a first call: the listener hands
    headers that can change it to its first call only. *)
Definition writeHead (head_request : bool) (code : Number.t) (reason : option string)
    (hs : option Headers) (response : t) : option string * t :=
  match head response with
  | Some _ => (Some "Cannot write headers after they are sent to the client", response)
  | None =>
      let status := Number.toInt32 code in
      if negb (valid_status status)
      then (Some ("Invalid status code: " ++ Number.toString code), response)
      else
        let phrase := reason_phrase status reason response in
        let stored := {| stored_statusCode := status;
                         stored_statusMessage := Some phrase;
                         head := None;
                         ended := ended response |} in
        if negb (valid_phrase phrase)
        then (Some "Invalid character in statusMessage", stored)
        else
          match header_refusal hs with
          | Some message => (Some message, stored)
          | None =>
              if trailer_refused head_request status hs
              then (Some "Trailers are invalid with this transfer encoding", stored)
              else
                (None,
                 {| stored_statusCode := status;
                    stored_statusMessage := Some phrase;
                    head := Some {| statusCode := status;
                                    statusMessage := phrase;
                                    headers := hs |};
                    ended := ended response |})
          end
  end.

(** [end(data)] *)
Definition end_ (data : option string) (response : t) : t :=
  {| stored_statusCode := stored_statusCode response;
     stored_statusMessage := stored_statusMessage response;
     head := head response;
     ended := ended response ++ [data] |}.

(** [writeHead] called with this status code and reason stores a
    reason phrase that it then refuses. *)
Definition keeps_refused_reason (code : Number.t) (reason : option string) : bool :=
  valid_status (Number.toInt32 code)
  && match reason with
     | Some text => negb (valid_text text)
     | None => false
     end.

(** The response holds a reason phrase with forbidden characters. *)
Definition poisoned (response : t) : bool :=
  match stored_statusMessage response with
  | Some phrase => negb (valid_phrase phrase)
  | None => false
  end.

End ServerResponse.

(** ** The protocol handler's interface ([../handler]) *)

Module ResponseInit.

Record t : Type := {
  status : Number.t;
  statusText : option string;
  headers : Headers
}.

End ResponseInit.

Module Request.

(** The request descriptor handed to the protocol handler.  [body] is
    a closure over the inbound stream: calling it changes the stream's
    listeners and returns a promise, named by its index.  [context] is
    [None] for [undefined]. *)
Record t (Context : Type) : Type := {
  url : string;
  method : string;
  headers : Headers;
  body : IncomingMessage.t -> nat * IncomingMessage.t;
  raw : IncomingMessage.t;
  context : option Context
}.

End Request.

(** What the protocol handler does with a descriptor, as far as the
    listener can tell: it finally resolves with [[body, init]], throws,
    rejects, or never settles; on the way it may call the descriptor's
    [body()] (getting a promise), await such a promise, or await
    something else while the stream emits its next [events] events:
    none for an await that involves no input, one for a chunk that
    arrives meanwhile, all that is left for a body that has arrived in
    full. *)
Inductive Script : Type :=
| Resolve (body : string) (init : ResponseInit.t)
| Throw (e : JSValue)
| Reject (e : JSValue)
| Never
| CallBody (k : nat -> Script)
| Await (p : nat) (k : string -> Script)
| Tick (events : nat) (k : Script).

(** How a promise ends up. *)
Inductive Settlement (A : Type) : Type :=
| Fulfilled (a : A)
| Rejected (e : JSValue)
| Pending.
Arguments Rejected {A} e.
Arguments Pending {A}.

(** ** The process, the console and the world of one request cycle *)

(** [process.env], and the stack the engine attaches to an error made
    with the given message. *)
Record Process : Type := {
  env : string -> option string;
  captureStack : string -> option string
}.

(** The result of running a piece of the listener: it returned, it threw,
    or it is suspended on a promise that never settles. *)
Inductive Outcome (A : Type) : Type :=
| Returned (a : A)
| Thrown (e : JSValue)
| Suspended.
Arguments Thrown {A} e.
Arguments Suspended {A}.

Section Listener.

Context {Context : Type}.

Record World : Type := {
  process : Process;
  req : IncomingMessage.t;
  res : ServerResponse.t;
  console : list (string * JSValue);
  handled : list (Request.t Context)
}.

(** The world at the start of a cycle: a new response, nothing logged
    and no handler invoked. *)
Definition arrival (p : Process) (r : IncomingMessage.t) : World :=
  {| process := p; req := r; res := ServerResponse.fresh; console := []; handled := [] |}.

Definition M (A : Type) : Type := World -> Outcome A * World.

Definition ret {A} (a : A) : M A := fun w => (Returned a, w).

Definition bind {A B} (m : M A) (k : A -> M B) : M B :=
  fun w =>
    match m w with
    | (Returned a, w') => k a w'
    | (Thrown e, w') => (Thrown e, w')
    | (Suspended, w') => (Suspended, w')
    end.

Definition throw {A} (e : JSValue) : M A := fun w => (Thrown e, w).

(** [try { m } catch (err) { h err }]: only a throw reaches [h]. *)
Definition try_catch {A} (m : M A) (h : JSValue -> M A) : M A :=
  fun w =>
    match m w with
    | (Thrown e, w') => h e w'
    | other => other
    end.

Notation "x <- m ;; k" := (bind m (fun x => k))
  (at level 61, m at next level, right associativity).
Notation "m ;;; k" := (bind m (fun _ => k))
  (at level 61, right associativity).

(** [new Error(message)] *)
Definition new_Error (message : string) : M JSValue :=
  fun w => (Returned (JSError message (captureStack (process w) message)), w).

Definition set_res (w : World) (r : ServerResponse.t) : World :=
  {| process := process w; req := req w; res := r; console := console w; handled := handled w |}.

(** [req.method === 'HEAD'], which the host tests when it makes the
    response. *)
Definition head_request (r : IncomingMessage.t) : bool :=
  match IncomingMessage.method r with
  | Some method => String.eqb method "HEAD"
  | None => false
  end.

(** [res.writeHead(statusCode, reason, headers)] *)
Definition writeHead (code : Number.t) (reason : option string) (hs : option Headers)
  : M unit :=
  fun w =>
    match ServerResponse.writeHead (head_request (req w)) code reason hs (res w) with
    | (None, response) => (Returned tt, set_res w response)
    | (Some message, response) => (e <- new_Error message ;; throw e) (set_res w response)
    end.

(** [.end(data)] *)
Definition end_ (data : option string) : M unit :=
  fun w => (Returned tt, set_res w (ServerResponse.end_ data (res w))).

(** [console.error(message, err)] *)
Definition console_error (message : string) (err : JSValue) : M unit :=
  fun w =>
    (Returned tt,
     {| process := process w; req := req w; res := res w;
        console := console w ++ [(message, err)]; handled := handled w |}).

(** [JSON.stringify(value)] as a step of the listener. *)
Definition JSON_stringify (v : JSValue) : M (option string) :=
  match JSON.stringify v with
  | JSON.Text s => ret (Some s)
  | JSON.Omitted => ret None
  | JSON.Raises (JSON.EngineTypeError message) => e <- new_Error message ;; throw e
  | JSON.Raises (JSON.UserValue thrown) => throw thrown
  end.

(** The descriptor's [body] accessor,
    [() => new Promise((resolve) => { let body = ''; req.on('data', ...);
    req.on('end', ...) })]: every call makes a new promise with an
    empty buffer of its own and registers its two listeners. *)
Definition body (r : IncomingMessage.t) : nat * IncomingMessage.t :=
  (length (IncomingMessage.subscriptions r),
   IncomingMessage.with_stream r
     (IncomingMessage.pending r) (IncomingMessage.emitted r) (IncomingMessage.ended r)
     (IncomingMessage.subscriptions r
        ++ [{| IncomingMessage.buffer := ""; IncomingMessage.resolved := None |}])).

(** The handler's script run against the inbound stream.  Awaiting a
    promise hands control to the event loop until the promise is
    resolved or the stream has nothing more to emit. *)
Fixpoint run_script (d : Request.t Context) (s : Script) (r : IncomingMessage.t)
  : Settlement (string * ResponseInit.t) * IncomingMessage.t :=
  match s with
  | Resolve b init => (Fulfilled (b, init), r)
  | Throw e => (Rejected e, r)
  | Reject e => (Rejected e, r)
  | Never => (Pending, r)
  | CallBody k =>
      let (p, r') := Request.body d r in
      run_script d (k p) r'
  | Await p k =>
      match IncomingMessage.promise r p with
      | Some v => run_script d (k v) r
      | None =>
          let r' := IncomingMessage.drain r in
          match IncomingMessage.promise r' p with
          | Some v => run_script d (k v) r'
          | None => (Pending, r')
          end
      end
  | Tick events k => run_script d k (IncomingMessage.deliver_all events r)
  end.

(** [await handle(descriptor)] *)
Definition await_handle (handle : Request.t Context -> Script) (d : Request.t Context)
  : M (string * ResponseInit.t) :=
  fun w =>
    let (settled, r') := run_script d (handle d) (req w) in
    let w' := {| process := process w; req := r'; res := res w;
                 console := console w; handled := handled w ++ [d] |} in
    match settled with
    | Fulfilled a => (Returned a, w')
    | Rejected e => (Thrown e, w')
    | Pending => (Suspended, w')
    end.

(** The value of [x] when [!x] is false: a present, non-empty string. *)
Definition truthy (x : option string) : option string :=
  match x with
  | Some EmptyString => None
  | other => other
  end.

Definition json_headers : Headers :=
  [("content-type", "application/json; charset=utf-8")].

(** The argument of [JSON.stringify] in the catch block. *)
Definition error_envelope (err : JSValue) : JSValue :=
  JSObject
    [("errors",
      JSArray
        [match err with
         | JSError message stack =>
             JSObject [("message", JSString message);
                       ("stack", match stack with
                                 | Some s => JSString s
                                 | None => JSUndefined
                                 end)]
         | _ => err
         end])].

Definition log_message : string :=
  "Internal error occurred during request handling. " ++ "Please check your implementation.".

(** The object literal passed to [handle]. *)
Definition descriptor (u m : string) (r : IncomingMessage.t) : Request.t Context :=
  {| Request.url := u;
     Request.method := m;
     Request.headers := IncomingMessage.headers r;
     Request.body := body;
     Request.raw := r;
     Request.context := None |}.

(** The head that [res.writeHead(init.status, init.statusText,
    init.headers)] writes on a new response when it accepts it as it
    stands. *)
Definition head_of_init (init : ResponseInit.t) : ServerResponse.Head :=
  {| ServerResponse.statusCode := Number.value (ResponseInit.status init);
     ServerResponse.statusMessage :=
       match ResponseInit.statusText init with
       | Some text => ServerResponse.Given text
       | None => ServerResponse.Standard (Number.value (ResponseInit.status init))
       end;
     ServerResponse.headers := Some (ResponseInit.headers init) |}.

(** The number 500. *)
Definition status_500 : Number.t := Number.make 500 eq_refl.

(** The heads that [res.writeHead(500)] and
    [res.writeHead(500, { 'content-type': ... })] write on a response
    that holds no reason phrase yet. *)
Definition bare_500 : ServerResponse.Head :=
  {| ServerResponse.statusCode := 500;
     ServerResponse.statusMessage := ServerResponse.Standard 500;
     ServerResponse.headers := None |}.

Definition json_500 : ServerResponse.Head :=
  {| ServerResponse.statusCode := 500;
     ServerResponse.statusMessage := ServerResponse.Standard 500;
     ServerResponse.headers := Some json_headers |}.

(** The [try] block of [requestListener]. *)
Definition attempt (handle : Request.t Context -> Script) : M unit :=
  fun w =>
    match truthy (IncomingMessage.url (req w)) with
    | None => (e <- new_Error "Missing request URL" ;; throw e) w
    | Some u =>
        match truthy (IncomingMessage.method (req w)) with
        | None => (e <- new_Error "Missing request method" ;; throw e) w
        | Some m =>
            (result <- await_handle handle (descriptor u m (req w)) ;;
             writeHead (ResponseInit.status (snd result))
                       (ResponseInit.statusText (snd result))
                       (Some (ResponseInit.headers (snd result))) ;;;
             end_ (Some (fst result))) w
        end
    end.

(** The [catch (err)] block. *)
Definition recover (isProd : bool) (err : JSValue) : M unit :=
  console_error log_message err ;;;
  if isProd then
    writeHead status_500 None None ;;;
    end_ None
  else
    writeHead status_500 None (Some json_headers) ;;;
    text <- JSON_stringify (error_envelope err) ;;
    end_ text.

Definition requestListener (isProd : bool) (handle : Request.t Context -> Script) : M unit :=
  try_catch (attempt handle) (recover isProd).

(** [process.env.NODE_ENV === 'production'] *)
Definition is_production (p : Process) : bool :=
  match env p "NODE_ENV" with
  | Some v => String.eqb v "production"
  | None => false
  end.

(** [createHandler(options)], evaluated in process [p]; the raw
    handler factory of [../handler] is a parameter. *)
Definition createHandler (Options : Type)
    (createRawHandler : Options -> Request.t Context -> Script)
    (p : Process) (options : Options) : M unit :=
  let isProd := is_production p in
  let handle := createRawHandler options in
  requestListener isProd handle.

End Listener.

(** ** Reference inputs *)

Definition node_process (mode : option string) : Process :=
  {| env := fun name => if String.eqb name "NODE_ENV" then mode else None;
     captureStack := fun message => Some ("Error: " ++ message) |}.

Definition development : Process := node_process None.
Definition production : Process := node_process (Some "production").

Definition post_graphql : IncomingMessage.t :=
  IncomingMessage.incoming (Some "/graphql") (Some "POST")
    [("content-type", "application/json")] ["{__type"; "name}"].

Definition ok_json : ResponseInit.t :=
  {| ResponseInit.status := Number.make 200 eq_refl;
     ResponseInit.statusText := None;
     ResponseInit.headers := [("content-type", "application/json")] |}.

(** A handler that reads the body once and answers with it. *)
Definition echo_handler (d : Request.t unit) : Script :=
  CallBody (fun p => Await p (fun text => Resolve text ok_json)).

(** A handler that reads the body, then asks for it a second time. *)
Definition reread_handler (d : Request.t unit) : Script :=
  CallBody (fun p => Await p (fun _ =>
  CallBody (fun q => Await q (fun text => Resolve text ok_json)))).

(** A handler that ignores the body. *)
Definition static_handler (d : Request.t unit) : Script :=
  Tick 1 (Resolve "{}" ok_json).

(** A handler whose promise never settles. *)
Definition stuck_handler (d : Request.t unit) : Script := Never.

(** A handler that rejects with the given value. *)
Definition failing_handler (e : JSValue) (d : Request.t unit) : Script := Reject e.

(** A handler that answers with a header name that is no HTTP token. *)
Definition bad_header : ResponseInit.t :=
  {| ResponseInit.status := Number.make 200 eq_refl;
     ResponseInit.statusText := None;
     ResponseInit.headers := [("x trace", "1")] |}.

Definition bad_header_handler (d : Request.t unit) : Script := Resolve "ok" bad_header.



(** A handler that answers with a status code no host accepts. *)
Definition zero_status : ResponseInit.t :=
  {| ResponseInit.status := Number.make 0 eq_refl;
     ResponseInit.statusText := None;
     ResponseInit.headers := [] |}.

Definition zero_status_handler (d : Request.t unit) : Script := Resolve "ok" zero_status.

(** ** Vocabulary of the properties *)

(** A script in which the descriptor's [body()] is never called. *)
Inductive never_calls_body : Script -> Prop :=
| ncb_resolve b init : never_calls_body (Resolve b init)
| ncb_throw e : never_calls_body (Throw e)
| ncb_reject e : never_calls_body (Reject e)
| ncb_never : never_calls_body Never
| ncb_await p k : (forall v, never_calls_body (k v)) -> never_calls_body (Await p k)
| ncb_tick events k : never_calls_body k -> never_calls_body (Tick events k).

(** The error payload as the specification words it: [{message, stack}]
    for an error object, the raw value otherwise. *)
Definition spec_payload (err : JSValue) : JSValue :=
  if instanceof_Error err then
    match err with
    | JSError message stack =>
        JSObject [("message", JSString message);
                  ("stack", match stack with Some s => JSString s | None => JSUndefined end)]
    | _ => JSUndefined
    end
  else err.

(** The envelope [{ errors: [payload] }] of the specification. *)
Definition spec_envelope (err : JSValue) : JSValue :=
  JSObject [("errors", JSArray [spec_payload err])].

(** How the handler's promise ends up when the handler is invoked for
    request [r], whose URL and method are [u] and [m]. *)
Definition handler_settles {Context : Type} (handle : Request.t Context -> Script)
    (u m : string) (r : IncomingMessage.t) : Settlement (string * ResponseInit.t) :=
  let d : Request.t Context := descriptor u m r in
  fst (run_script d (handle d) r).

(** The message of the error that the host's [writeHead] throws when
    the listener hands it [init] on the new response to request [r], if
    it throws. *)
Definition host_refusal (r : IncomingMessage.t) (init : ResponseInit.t) : option string :=
  fst (ServerResponse.writeHead (head_request r)
         (ResponseInit.status init) (ResponseInit.statusText init)
         (Some (ResponseInit.headers init)) ServerResponse.fresh).

(** The reason phrase under which the catch block's 500 goes out once
    [writeHead(init.status, init.statusText, init.headers)] has thrown
    on the new response: what that call stored, which is the handler's
    status text, or the standard phrase of the handler's status when
    there is no text; the standard phrase of 500 when the call stopped
    at the status code or stored the empty text. *)
Definition fallback_phrase (init : ResponseInit.t) : ServerResponse.Phrase :=
  let status := Number.toInt32 (ResponseInit.status init) in
  if ServerResponse.valid_status status then
    match ResponseInit.statusText init with
    | Some EmptyString => ServerResponse.Standard 500
    | Some text => ServerResponse.Given text
    | None => ServerResponse.Standard status
    end
  else ServerResponse.Standard 500.


(** Whether [JSON.stringify] returns, rather than throws. *)
Definition serialisable (v : JSValue) : bool :=
  match JSON.stringify v with
  | JSON.Raises _ => false
  | _ => true
  end.

(** The response once the catch block has written its 500 head on a
    response that holds no refused reason phrase, and has passed [data]
    to [end]. *)
Definition answered (response : ServerResponse.t) (hs : option Headers)
    (data : list (option string)) : ServerResponse.t :=
  {| ServerResponse.stored_statusCode := 500;
     ServerResponse.stored_statusMessage :=
       Some (ServerResponse.reason_phrase 500 None response);
     ServerResponse.head :=
       Some {| ServerResponse.statusCode := 500;
               ServerResponse.statusMessage := ServerResponse.reason_phrase 500 None response;
               ServerResponse.headers := hs |};
     ServerResponse.ended := (ServerResponse.ended response ++ data)%list |}.

(** The world once the catch block has logged [err] and left the
    response as [response]. *)
Definition logged {Context : Type} (w : World (Context := Context)) (err : JSValue)
    (response : ServerResponse.t) : World (Context := Context) :=
  {| process := process w; req := req w; res := response;
     console := (console w ++ [(log_message, err)])%list;
     handled := handled w |}.

(** What the host and the client can see of a finished cycle. *)
Definition observable {Context : Type} (x : Outcome unit * World (Context := Context)) :=
  (fst x, req (snd x), res (snd x), console (snd x), handled (snd x)).

(** The process with its environment replaced. *)
Definition with_env (p : Process) (e : string -> option string) : Process :=
  {| env := e; captureStack := captureStack p |}.

(** [n] calls of [body()] in a row, made without yielding to the event
    loop in between. *)
Fixpoint call_body (n : nat) (r : IncomingMessage.t) : IncomingMessage.t :=
  match n with
  | O => r
  | S k => call_body k (snd (body r))
  end.

(** The JSON text [{"errors":[{"message":...,"stack":...}]}], written
    out; the [stack] member is left out when the error has none. *)
Definition error_body (message : string) (stack : option string) : string :=
  "{" ++ JSON.quote "errors" ++ ":[{"
      ++ JSON.quote "message" ++ ":" ++ JSON.quote message
      ++ match stack with
         | Some s => "," ++ JSON.quote "stack" ++ ":" ++ JSON.quote s
         | None => ""
         end
      ++ "}]}".

(** The message of the error thrown for the first missing field. *)
Definition missing_field_message (r : IncomingMessage.t) : string :=
  match truthy (IncomingMessage.url r) with
  | None => "Missing request URL"
  | Some _ => "Missing request method"
  end.

(** ** Strings *)

Lemma append_empty_r (s : string) : s ++ "" = s.
Proof. induction s as [|c s IH]; simpl; [reflexivity | now rewrite IH]. Qed.

Lemma append_assoc (a b c : string) : (a ++ b) ++ c = a ++ (b ++ c).
Proof. induction a as [|x a IH]; simpl; [reflexivity | now rewrite IH]. Qed.

Lemma concat_cons (c : string) (cs : list string) :
  String.concat "" (c :: cs) = c ++ String.concat "" cs.
Proof. destruct cs; simpl; [now rewrite append_empty_r | reflexivity]. Qed.

(** ** The inbound stream *)

Section Stream.

Import IncomingMessage.

Lemma fed_nil (s : Subscription) : fed [] s = s.
Proof. destruct s; unfold fed; simpl. now rewrite append_empty_r. Qed.

Lemma fed_cons (c : string) (cs : list string) (s : Subscription) :
  fed (c :: cs) s = fed cs (on_data c s).
Proof.
  unfold fed, on_data. rewrite concat_cons. simpl. now rewrite append_assoc.
Qed.

Lemma deliver_ended (r : t) : ended r = true -> deliver r = r.
Proof. intros H. unfold deliver. now rewrite H. Qed.

Lemma deliver_paused (r : t) : subscriptions r = [] -> deliver r = r.
Proof.
  intros H. unfold deliver, flowing. rewrite H.
  now destruct (ended r).
Qed.

Lemma deliver_all_fixed (n : nat) (r : t) : deliver r = r -> deliver_all n r = r.
Proof. intros H. induction n as [|n IH]; simpl; [reflexivity | now rewrite H]. Qed.

Lemma drain_paused (r : t) : subscriptions r = [] -> drain r = r.
Proof. intros H. apply deliver_all_fixed. now apply deliver_paused. Qed.

(** Draining a flowing stream hands every listener all pending chunks,
    in order, and then the end of the stream. *)
Lemma deliver_all_flowing (cs : list string) :
  forall (n : nat) (r : t),
    pending r = cs -> ended r = false -> subscriptions r <> [] ->
    (length cs < n)%nat ->
    deliver_all n r
    = with_stream r [] (emitted r ++ cs) true
        (map (fun s => on_end (fed cs s)) (subscriptions r)).
Proof.
  induction cs as [|c cs IH]; intros n r Hp He Hs Hn.
  - destruct n as [|n]; [simpl in Hn; lia|].
    simpl. unfold deliver at 1, flowing. rewrite He, Hp.
    destruct (subscriptions r) as [|s0 subs] eqn:E; [congruence|]. simpl negb. cbv iota.
    rewrite deliver_all_fixed by (apply deliver_ended; reflexivity).
    rewrite app_nil_r. unfold with_stream. f_equal.
    apply map_ext. intros s. now rewrite fed_nil.
  - destruct n as [|n]; [simpl in Hn; lia|].
    simpl. unfold deliver at 1, flowing. rewrite He, Hp.
    destruct (subscriptions r) as [|s0 subs] eqn:E; [congruence|]. simpl negb. cbv iota.
    rewrite IH; simpl; try reflexivity; try discriminate; [|simpl in Hn; lia].
    unfold with_stream; simpl. rewrite <- app_assoc. simpl. f_equal.
    rewrite map_map, fed_cons. f_equal.
    apply map_ext. intros s. now rewrite fed_cons.
Qed.

Lemma drain_flowing (r : t) :
  ended r = false -> subscriptions r <> [] ->
  drain r
  = with_stream r [] (emitted r ++ pending r) true
      (map (fun s => on_end (fed (pending r) s)) (subscriptions r)).
Proof.
  intros He Hs. unfold drain. apply deliver_all_flowing; auto.
Qed.

(** No chunk is lost or emitted twice. *)
Lemma deliver_conserves (r : t) :
  (emitted (deliver r) ++ pending (deliver r) = emitted r ++ pending r)%list.
Proof.
  unfold deliver. destruct (ended r); [reflexivity|].
  destruct (negb (flowing r)); [reflexivity|].
  destruct (pending r) as [|c cs]; simpl; [reflexivity|].
  now rewrite <- app_assoc.
Qed.

Lemma deliver_all_conserves (n : nat) (r : t) :
  (emitted (deliver_all n r) ++ pending (deliver_all n r) = emitted r ++ pending r)%list.
Proof.
  revert r. induction n as [|n IH]; intros r; simpl; [reflexivity|].
  rewrite IH. apply deliver_conserves.
Qed.

Lemma drain_conserves (r : t) :
  (emitted (drain r) ++ pending (drain r) = emitted r ++ pending r)%list.
Proof. apply deliver_all_conserves. Qed.

End Stream.

(** ** The descriptor's body accessor *)

Section Body.

Import IncomingMessage.

Lemma body_fst (r : t) : fst (body r) = length (subscriptions r).
Proof. reflexivity. Qed.

Lemma body_subscriptions (r : t) :
  subscriptions (snd (body r))
  = (subscriptions r ++ [{| buffer := ""; resolved := None |}])%list.
Proof. reflexivity. Qed.

Lemma promise_last (subs : list Subscription) (s : Subscription) :
  nth_error (subs ++ [s])%list (length subs) = Some s.
Proof. induction subs as [|x subs IH]; simpl; auto. Qed.

(** A resolved promise keeps its value whatever the stream does next. *)
Lemma promise_deliver (r : t) (p : nat) (v : string) :
  promise r p = Some v -> promise (deliver r) p = Some v.
Proof.
  unfold promise, deliver. intros H.
  destruct (ended r); [exact H|].
  destruct (negb (flowing r)); [exact H|].
  destruct (nth_error (subscriptions r) p) as [s|] eqn:E; [|discriminate].
  destruct (pending r); simpl.
  - rewrite nth_error_map, E. simpl. now rewrite H.
  - rewrite nth_error_map, E. simpl. exact H.
Qed.

End Body.

(** ** The handler's script *)

Section Scripts.

Context {Context : Type}.
Variable d : Request.t Context.

(** A script that never calls [body()] leaves a paused stream as it
    found it. *)
Lemma run_script_lazy (s : Script) :
  never_calls_body s ->
  forall r, IncomingMessage.subscriptions r = [] -> snd (run_script d s r) = r.
Proof.
  induction 1 as [b init|e|e| |p k Hk IH|events k Hk IH]; intros r Hr; simpl; try reflexivity.
  - rewrite drain_paused by exact Hr.
    unfold IncomingMessage.promise. rewrite Hr.
    destruct p; reflexivity.
  - rewrite deliver_all_fixed by (apply deliver_paused; exact Hr). now apply IH.
Qed.

Hypothesis body_field : Request.body d = body.

Lemma deliver_all_method (n : nat) :
  forall r, IncomingMessage.method (IncomingMessage.deliver_all n r) = IncomingMessage.method r.
Proof.
  induction n as [|n IH]; intros r; simpl; [reflexivity|].
  rewrite IH. unfold IncomingMessage.deliver.
  destruct (IncomingMessage.ended r); [reflexivity|].
  destruct (negb (IncomingMessage.flowing r)); [reflexivity|].
  destruct (IncomingMessage.pending r); reflexivity.
Qed.

(** The handler's script does not change the request's method. *)
Lemma run_script_method (s : Script) :
  forall r,
    IncomingMessage.method (snd (run_script d s r)) = IncomingMessage.method r.
Proof.
  induction s as [b init|e|e| |k IH|p k IH|events k IH]; intros r; simpl; try reflexivity.
  - rewrite body_field. simpl. rewrite IH. reflexivity.
  - destruct (IncomingMessage.promise r p) as [v|]; [apply IH|].
    destruct (IncomingMessage.promise (IncomingMessage.drain r) p) as [v|].
    + rewrite IH. apply deliver_all_method.
    + simpl. apply deliver_all_method.
  - rewrite IH. apply deliver_all_method.
Qed.

(** Whatever the script does, the stream loses no chunk and emits none
    twice. *)
Lemma run_script_conserves (s : Script) :
  forall r,
    (IncomingMessage.emitted (snd (run_script d s r))
       ++ IncomingMessage.pending (snd (run_script d s r))
     = IncomingMessage.emitted r ++ IncomingMessage.pending r)%list.
Proof.
  induction s as [b init|e|e| |k IH|p k IH|events k IH]; intros r; simpl; try reflexivity.
  - rewrite body_field. simpl. rewrite IH. reflexivity.
  - destruct (IncomingMessage.promise r p) as [v|]; [apply IH|].
    destruct (IncomingMessage.promise (IncomingMessage.drain r) p) as [v|].
    + rewrite IH. apply drain_conserves.
    + simpl. apply drain_conserves.
  - rewrite IH. apply deliver_all_conserves.
Qed.

End Scripts.

(** ** The host's [writeHead] *)

Section Host.

Import ServerResponse.

Lemma toInt32_small (n : Number.t) :
  0 <= Number.value n < 2 ^ 31 -> Number.toInt32 n = Number.value n.
Proof.
  intros H. unfold Number.toInt32.
  rewrite Z.mod_small; lia.
Qed.

Lemma valid_status_bounds (status : Z) :
  valid_status status = true <-> 100 <= status <= 999.
Proof. unfold valid_status. rewrite andb_true_iff, !Z.leb_le. tauto. Qed.

(** No header is refused exactly when all headers are valid. *)
Lemma header_refusal_none (hs : option Headers) :
  header_refusal hs = None <-> valid_headers hs = true.
Proof.
  unfold header_refusal, valid_headers.
  destruct hs as [fields|]; [|simpl; tauto].
  induction fields as [|[name value] fields IH]; simpl; [tauto|].
  destruct (valid_header (name, value)); simpl.
  - exact IH.
  - split; discriminate.
Qed.

(** A phrase with forbidden characters is not empty. *)
Lemma invalid_phrase_truthy (phrase : Phrase) :
  valid_phrase phrase = false -> truthy_phrase phrase = true.
Proof.
  destruct phrase as [[|c text]|status]; intros H; try reflexivity.
  discriminate H.
Qed.

(** A call never touches what was ended, and a call that throws writes
    no head. *)
Lemma writeHead_ended (hr : bool) (code : Number.t) (reason : option string)
    (hs : option Headers) (response : t) :
  ended (snd (writeHead hr code reason hs response)) = ended response.
Proof.
  unfold writeHead. destruct (head response); [reflexivity|].
  destruct (negb (valid_status _)); [reflexivity|]. cbv zeta.
  destruct (negb (valid_phrase _)); [reflexivity|].
  destruct (header_refusal hs); [reflexivity|].
  destruct (trailer_refused _ _ _); reflexivity.
Qed.

Lemma writeHead_refused (hr : bool) (code : Number.t) (reason : option string)
    (hs : option Headers) (response : t) (message : string) :
  head response = None ->
  fst (writeHead hr code reason hs response) = Some message ->
  head (snd (writeHead hr code reason hs response)) = None.
Proof.
  intros Hh. unfold writeHead. rewrite Hh.
  destruct (negb (valid_status _)); [auto|]. cbv zeta.
  destruct (negb (valid_phrase _)); [auto|].
  destruct (header_refusal hs); [auto|].
  destruct (trailer_refused _ _ _); [auto | discriminate].
Qed.

Lemma writeHead_accepted (hr : bool) (code : Number.t) (reason : option string)
    (hs : option Headers) (response : t) :
  fst (writeHead hr code reason hs response) = None ->
  head (snd (writeHead hr code reason hs response))
  = Some {| statusCode := Number.toInt32 code;
            statusMessage := reason_phrase (Number.toInt32 code) reason response;
            headers := hs |}.
Proof.
  unfold writeHead. destruct (head response); [discriminate|].
  destruct (negb (valid_status _)); [discriminate|]. cbv zeta.
  destruct (negb (valid_phrase _)); [discriminate|].
  destruct (header_refusal hs); [discriminate|].
  destruct (trailer_refused _ _ _); [discriminate | reflexivity].
Qed.

(** A call that returns has found the status code, wrapped into 32
    bits, within 100..999. *)
Lemma writeHead_accepted_status (hr : bool) (code : Number.t) (reason : option string)
    (hs : option Headers) (response : t) :
  fst (writeHead hr code reason hs response) = None ->
  valid_status (Number.toInt32 code) = true.
Proof.
  unfold writeHead. destruct (head response); [discriminate|].
  destruct (valid_status _); [reflexivity | discriminate].
Qed.

(** On a new response, a call leaves a refused phrase behind exactly
    when the status code passes and the given reason does not. *)
Lemma writeHead_fresh_poisoned (hr : bool) (code : Number.t) (reason : option string)
    (hs : option Headers) :
  poisoned (snd (writeHead hr code reason hs fresh)) = keeps_refused_reason code reason.
Proof.
  unfold writeHead, keeps_refused_reason, poisoned. simpl head. cbv iota.
  destruct (valid_status (Number.toInt32 code)); simpl negb; cbv iota zeta;
    [|reflexivity].
  unfold reason_phrase. destruct reason as [text|].
  - simpl valid_phrase. destruct (valid_text text) eqn:Ht; simpl negb; cbv iota.
    + destruct (header_refusal hs); [|destruct (trailer_refused _ _ _)];
        simpl; rewrite Ht; reflexivity.
    + simpl. rewrite Ht. reflexivity.
  - simpl. destruct (header_refusal hs); [|destruct (trailer_refused _ _ _)]; reflexivity.
Qed.

(** The reason phrase that a later [writeHead(500)] finds after a call
    on a new response. *)
Lemma writeHead_fresh_phrase (hr : bool) (code : Number.t) (reason : option string)
    (hs : option Headers) :
  reason_phrase 500 None (snd (writeHead hr code reason hs fresh))
  = if valid_status (Number.toInt32 code) then
      match reason with
      | Some EmptyString => Standard 500
      | Some text => Given text
      | None => Standard (Number.toInt32 code)
      end
    else Standard 500.
Proof.
  unfold writeHead. simpl head. cbv iota.
  destruct (valid_status (Number.toInt32 code)); simpl negb; cbv iota zeta;
    [|reflexivity].
  destruct reason as [[|c text]|]; unfold reason_phrase at 2 3 4;
    simpl stored_statusMessage; cbv iota.
  - simpl valid_phrase. simpl negb. cbv iota.
    destruct (header_refusal hs); [|destruct (trailer_refused _ _ _)]; reflexivity.
  - destruct (negb (valid_phrase (Given (String c text))));
      [|destruct (header_refusal hs); [|destruct (trailer_refused _ _ _)]]; reflexivity.
  - simpl valid_phrase. simpl negb. cbv iota.
    destruct (header_refusal hs); [|destruct (trailer_refused _ _ _)]; reflexivity.
Qed.

(** On a new response, a head whose parts are valid and whose framing
    allows its [Trailer] header, if it has one, is written as it
    stands. *)
Lemma writeHead_fresh_valid (hr : bool) (code : Number.t) (reason : option string)
    (fields : Headers) :
  valid_head {| statusCode := Number.value code;
                statusMessage := match reason with
                                 | Some text => Given text
                                 | None => Standard (Number.value code)
                                 end;
                headers := Some fields |} = true ->
  trailer_refused hr (Number.value code) (Some fields) = false ->
  fst (writeHead hr code reason (Some fields) fresh) = None.
Proof.
  unfold valid_head. simpl. rewrite !andb_true_iff. intros [[Hs Hp] Hh] Htrailer.
  assert (Number.toInt32 code = Number.value code) as Hcode.
  { apply toInt32_small. apply valid_status_bounds in Hs. lia. }
  unfold writeHead. simpl head. cbv iota. rewrite Hcode, Hs. simpl negb. cbv iota zeta.
  assert (reason_phrase (Number.value code) reason fresh
          = match reason with
            | Some text => Given text
            | None => Standard (Number.value code)
            end) as -> by (destruct reason; reflexivity).
  rewrite Hp. simpl negb. cbv iota.
  apply (header_refusal_none (Some fields)) in Hh. rewrite Hh, Htrailer. reflexivity.
Qed.

(** The listener's own [writeHead(500)] and [writeHead(500, headers)]
    on a response without a head: they throw exactly when the response
    holds a refused reason phrase, and otherwise write status 500 under
    the phrase the response holds, or the standard one. *)
Lemma writeHead_500 (hr : bool) (hs : option Headers) (response : t) :
  head response = None ->
  valid_headers hs = true ->
  has_field "trailer" hs = false ->
  writeHead hr status_500 None hs response
  = if poisoned response
    then (Some "Invalid character in statusMessage",
          {| stored_statusCode := 500;
             stored_statusMessage := stored_statusMessage response;
             head := None;
             ended := ended response |})
    else (None,
          {| stored_statusCode := 500;
             stored_statusMessage := Some (reason_phrase 500 None response);
             head := Some {| statusCode := 500;
                             statusMessage := reason_phrase 500 None response;
                             headers := hs |};
             ended := ended response |}).
Proof.
  intros Hh Hv Htrailer. apply header_refusal_none in Hv.
  assert (trailer_refused hr 500 hs = false) as Hframing
    by (unfold trailer_refused; rewrite Htrailer; reflexivity).
  unfold writeHead, poisoned. rewrite Hh.
  change (Number.toInt32 status_500) with 500.
  change (negb (valid_status 500)) with false. cbv iota zeta.
  unfold reason_phrase at 1 2.
  destruct (stored_statusMessage response) as [phrase|] eqn:E.
  - destruct (valid_phrase phrase) eqn:Hp; simpl negb; cbv iota.
    + assert (valid_phrase (if truthy_phrase phrase then phrase else Standard 500) = true)
        as Hp' by (destruct (truthy_phrase phrase); [exact Hp | reflexivity]).
      rewrite Hp'. simpl negb. cbv iota. rewrite Hv, Hframing.
      unfold reason_phrase. rewrite E. reflexivity.
    + rewrite (invalid_phrase_truthy phrase Hp), Hp. reflexivity.
  - simpl. rewrite Hv, Hframing. unfold reason_phrase. rewrite E. reflexivity.
Qed.

End Host.

(** ** One request cycle, step by step *)

Section Cycle.

Context {Context : Type}.
Variable handle : Request.t Context -> Script.
Variable p : Process.
Variable r : IncomingMessage.t.

Lemma attempt_missing_url :
  truthy (IncomingMessage.url r) = None ->
  attempt handle (arrival p r)
  = (Thrown (JSError "Missing request URL" (captureStack p "Missing request URL")),
     arrival p r).
Proof. intros H. unfold attempt. simpl. rewrite H. reflexivity. Qed.

Lemma attempt_missing_method (u : string) :
  truthy (IncomingMessage.url r) = Some u ->
  truthy (IncomingMessage.method r) = None ->
  attempt handle (arrival p r)
  = (Thrown (JSError "Missing request method" (captureStack p "Missing request method")),
     arrival p r).
Proof. intros Hu Hm. unfold attempt. simpl. rewrite Hu, Hm. reflexivity. Qed.

(** With both fields present the handler is invoked, once, on the
    descriptor, and the cycle goes the way the handler's promise and
    then the host's [writeHead] do. *)
Lemma attempt_handled (u m : string) :
  truthy (IncomingMessage.url r) = Some u ->
  truthy (IncomingMessage.method r) = Some m ->
  attempt handle (arrival p r)
  = let d := descriptor u m r in
    let w' := {| process := p; req := snd (run_script d (handle d) r);
                 res := ServerResponse.fresh; console := []; handled := [d] |} in
    match fst (run_script d (handle d) r) with
    | Fulfilled result =>
        let call := ServerResponse.writeHead
                      (head_request r)
                      (ResponseInit.status (snd result))
                      (ResponseInit.statusText (snd result))
                      (Some (ResponseInit.headers (snd result)))
                      ServerResponse.fresh in
        match fst call with
        | None =>
            (Returned tt, set_res w' (ServerResponse.end_ (Some (fst result)) (snd call)))
        | Some message =>
            (Thrown (JSError message (captureStack p message)), set_res w' (snd call))
        end
    | Rejected e => (Thrown e, w')
    | Pending => (Suspended, w')
    end.
Proof.
  intros Hu Hm. unfold attempt. simpl. rewrite Hu, Hm.
  unfold bind, await_handle. simpl.
  destruct (run_script (descriptor u m r) (handle (descriptor u m r)) r)
    as [[result|e|] r'] eqn:E; simpl; try reflexivity.
  unfold writeHead. simpl.
  assert (head_request r' = head_request r) as ->.
  { unfold head_request.
    pose proof (@run_script_method Context (descriptor u m r) eq_refl
                  (handle (descriptor u m r)) r) as Hmethod.
    rewrite E in Hmethod. simpl in Hmethod. rewrite Hmethod. reflexivity. }
  destruct (ServerResponse.writeHead _ _ _ _ ServerResponse.fresh) as [[message|] response];
    reflexivity.
Qed.

(** The try block has three ways to end.  When it throws, no head has
    been written, nothing was ended and nothing logged yet. *)
Lemma attempt_thrown (e : JSValue) (w : World) :
  attempt handle (arrival p r) = (Thrown e, w) ->
  process w = p
  /\ ServerResponse.head (res w) = None
  /\ ServerResponse.ended (res w) = []
  /\ console w = [].
Proof.
  destruct (truthy (IncomingMessage.url r)) as [u|] eqn:Hu.
  2:{ rewrite attempt_missing_url by exact Hu. intros H. inversion H. auto. }
  destruct (truthy (IncomingMessage.method r)) as [m|] eqn:Hm.
  2:{ rewrite (attempt_missing_method Hu Hm). intros H. inversion H. auto. }
  rewrite (attempt_handled Hu Hm). cbv zeta.
  destruct (fst (run_script _ _ r)) as [result|e'|]; try discriminate.
  - destruct (fst (ServerResponse.writeHead _ _ _ _ _)) as [message|] eqn:Hcall;
      intros H; inversion H; simpl.
    repeat split.
    + eapply writeHead_refused; [reflexivity | exact Hcall].
    + apply writeHead_ended.
  - intros H; inversion H; auto.
Qed.

(** A refused reason phrase is the only thing a throwing try block can
    leave behind on the response, and it comes from the handler. *)
Lemma attempt_poisoned (e : JSValue) (w : World) :
  attempt handle (arrival p r) = (Thrown e, w) ->
  ServerResponse.poisoned (res w) = true ->
  exists u m text init,
    truthy (IncomingMessage.url r) = Some u
    /\ truthy (IncomingMessage.method r) = Some m
    /\ handler_settles handle u m r = Fulfilled (text, init)
    /\ ServerResponse.keeps_refused_reason
         (ResponseInit.status init) (ResponseInit.statusText init) = true.
Proof.
  unfold handler_settles.
  destruct (truthy (IncomingMessage.url r)) as [u|] eqn:Hu.
  2:{ rewrite attempt_missing_url by exact Hu. intros H. inversion H. discriminate. }
  destruct (truthy (IncomingMessage.method r)) as [m|] eqn:Hm.
  2:{ rewrite (attempt_missing_method Hu Hm). intros H. inversion H. discriminate. }
  rewrite (attempt_handled Hu Hm). cbv zeta.
  destruct (fst (run_script _ _ r)) as [[text init]|e'|] eqn:E; try discriminate.
  - simpl snd. simpl fst.
    destruct (fst (ServerResponse.writeHead _ _ _ _ _)) as [message|];
      intros H; inversion H; simpl.
    rewrite writeHead_fresh_poisoned. intros Hk.
    exists u, m, text, init. auto.
  - intros H; inversion H; discriminate.
Qed.


(** A handler that resolves with a status text that [writeHead] stores
    and then refuses makes the try block throw the host's error and
    leaves that phrase on the response. *)
Lemma attempt_refused_reason (u m text : string) (init : ResponseInit.t) :
  truthy (IncomingMessage.url r) = Some u ->
  truthy (IncomingMessage.method r) = Some m ->
  handler_settles handle u m r = Fulfilled (text, init) ->
  ServerResponse.keeps_refused_reason
    (ResponseInit.status init) (ResponseInit.statusText init) = true ->
  exists w,
    attempt handle (arrival p r)
    = (Thrown (JSError "Invalid character in statusMessage"
                 (captureStack p "Invalid character in statusMessage")), w)
    /\ ServerResponse.poisoned (res w) = true.
Proof.
  intros Hu Hm H Hk. unfold handler_settles in H. cbv zeta in H.
  rewrite (attempt_handled Hu Hm). cbv zeta. rewrite H. simpl snd. simpl fst.
  pose proof (writeHead_fresh_poisoned (head_request r) (ResponseInit.status init)
                (ResponseInit.statusText init) (Some (ResponseInit.headers init))) as Hp.
  rewrite Hk in Hp.
  unfold ServerResponse.keeps_refused_reason in Hk.
  apply andb_true_iff in Hk. destruct Hk as [Hs Ht].
  destruct (ResponseInit.statusText init) as [reason|]; [|discriminate].
  assert (fst (ServerResponse.writeHead (head_request r) (ResponseInit.status init)
                 (Some reason) (Some (ResponseInit.headers init)) ServerResponse.fresh)
          = Some "Invalid character in statusMessage") as Hcall.
  { unfold ServerResponse.writeHead. simpl ServerResponse.head. cbv iota.
    rewrite Hs. simpl negb. cbv iota zeta.
    unfold ServerResponse.reason_phrase. simpl ServerResponse.valid_phrase.
    rewrite Ht. reflexivity. }
  rewrite Hcall. eexists. split; [reflexivity|]. exact Hp.
Qed.

Lemma attempt_suspended (w : World) :
  attempt handle (arrival p r) = (Suspended, w) ->
  res w = ServerResponse.fresh /\ console w = [].
Proof.
  destruct (truthy (IncomingMessage.url r)) as [u|] eqn:Hu.
  2:{ rewrite attempt_missing_url by exact Hu. discriminate. }
  destruct (truthy (IncomingMessage.method r)) as [m|] eqn:Hm.
  2:{ rewrite (attempt_missing_method Hu Hm). discriminate. }
  rewrite (attempt_handled Hu Hm). cbv zeta.
  destruct (fst (run_script _ _ r)) as [result|e'|]; try discriminate.
  - destruct (fst (ServerResponse.writeHead _ _ _ _ _)); discriminate.
  - intros H; inversion H; auto.
Qed.

Lemma attempt_returned (w : World) :
  attempt handle (arrival p r) = (Returned tt, w) ->
  console w = [] /\ length (ServerResponse.ended (res w)) = 1%nat.
Proof.
  destruct (truthy (IncomingMessage.url r)) as [u|] eqn:Hu.
  2:{ rewrite attempt_missing_url by exact Hu. discriminate. }
  destruct (truthy (IncomingMessage.method r)) as [m|] eqn:Hm.
  2:{ rewrite (attempt_missing_method Hu Hm). discriminate. }
  rewrite (attempt_handled Hu Hm). cbv zeta.
  destruct (fst (run_script _ _ r)) as [result|e'|]; try discriminate.
  destruct (fst (ServerResponse.writeHead _ _ _ _ _)); [discriminate|].
  intros H; inversion H; simpl. rewrite writeHead_ended. auto.
Qed.

(** The stream after the try block: untouched, or as the handler's
    script left it. *)
Lemma attempt_conserves :
  (IncomingMessage.emitted (req (snd (attempt handle (arrival p r))))
     ++ IncomingMessage.pending (req (snd (attempt handle (arrival p r))))
   = IncomingMessage.emitted r ++ IncomingMessage.pending r)%list.
Proof.
  destruct (truthy (IncomingMessage.url r)) as [u|] eqn:Hu.
  2:{ rewrite attempt_missing_url by exact Hu. reflexivity. }
  destruct (truthy (IncomingMessage.method r)) as [m|] eqn:Hm.
  2:{ rewrite (attempt_missing_method Hu Hm). reflexivity. }
  rewrite (attempt_handled Hu Hm). cbv zeta.
  destruct (fst (run_script _ _ r)) as [result|e'|];
    [destruct (fst (ServerResponse.writeHead _ _ _ _ _))| |]; simpl;
    apply run_script_conserves; reflexivity.
Qed.

End Cycle.

Section Recovery.

Context {Context : Type}.
Variable err : JSValue.
Variable w : World (Context := Context).
Hypothesis unsent : ServerResponse.head (res w) = None.

(** The catch block in production. *)
Lemma recover_production :
  ServerResponse.poisoned (res w) = false ->
  recover true err w = (Returned tt, logged w err (answered (res w) None [None])).
Proof.
  intros Hclean.
  unfold recover, bind, console_error, writeHead, end_, set_res. simpl.
  rewrite (@writeHead_500 (head_request (req w)) None (res w) unsent eq_refl eq_refl), Hclean. reflexivity.
Qed.

(** The catch block outside production: the head is written first,
    then the envelope is serialised, then the response is ended. *)
Lemma recover_development :
  ServerResponse.poisoned (res w) = false ->
  recover false err w
  = match JSON.stringify (error_envelope err) with
    | JSON.Text text => (Returned tt, logged w err (answered (res w) (Some json_headers) [Some text]))
    | JSON.Omitted => (Returned tt, logged w err (answered (res w) (Some json_headers) [None]))
    | JSON.Raises (JSON.EngineTypeError message) =>
        (Thrown (JSError message (captureStack (process w) message)),
         logged w err (answered (res w) (Some json_headers) []))
    | JSON.Raises (JSON.UserValue thrown) =>
        (Thrown thrown, logged w err (answered (res w) (Some json_headers) []))
    end.
Proof.
  intros Hclean.
  unfold recover, bind, console_error, writeHead, JSON_stringify, end_, set_res.
  remember (JSON.stringify (error_envelope err)) as text eqn:Htext. simpl.
  rewrite (@writeHead_500 (head_request (req w)) (Some json_headers) (res w) unsent eq_refl eq_refl), Hclean.
  unfold answered, logged.
  destruct text as [text| |[message|thrown]]; simpl; rewrite ?app_nil_r; reflexivity.
Qed.

(** The catch block on a response that holds a refused reason phrase:
    its own [writeHead] throws, in both modes, after the fault was
    logged; nothing is written and the response is not ended. *)
Lemma recover_poisoned (isProd : bool) :
  ServerResponse.poisoned (res w) = true ->
  recover isProd err w
  = (Thrown (JSError "Invalid character in statusMessage"
               (captureStack (process w) "Invalid character in statusMessage")),
     logged w err
            {| ServerResponse.stored_statusCode := 500;
               ServerResponse.stored_statusMessage :=
                 ServerResponse.stored_statusMessage (res w);
               ServerResponse.head := None;
               ServerResponse.ended := ServerResponse.ended (res w) |}).
Proof.
  intros Hpoison.
  destruct isProd; unfold recover, bind, console_error, writeHead, end_, set_res; simpl.
  - rewrite (@writeHead_500 (head_request (req w)) None (res w) unsent eq_refl eq_refl), Hpoison. reflexivity.
  - rewrite (@writeHead_500 (head_request (req w)) (Some json_headers) (res w) unsent eq_refl eq_refl), Hpoison.
    reflexivity.
Qed.

End Recovery.

(** The JSON text of an error object's envelope. *)
Lemma stringify_error_body (message : string) (stack : option string) :
  JSON.stringify (error_envelope (JSError message stack))
  = JSON.Text (error_body message stack).
Proof.
  destruct stack as [s|]; unfold error_body, JSON.stringify, JSON.quote, JSON.dquote; simpl;
    repeat (rewrite append_assoc; simpl); reflexivity.
Qed.

(** An error object always has a JSON text, and so has its envelope. *)
Lemma stringify_error_envelope (message : string) (stack : option string) :
  serialisable (error_envelope (JSError message stack)) = true.
Proof. unfold serialisable. rewrite stringify_error_body. reflexivity. Qed.

(** The envelope the code builds is the one the specification words. *)
Lemma error_envelope_spec (err : JSValue) : error_envelope err = spec_envelope err.
Proof. destruct err; reflexivity. Qed.

(** Serialising an envelope never yields [undefined]. *)
Lemma stringify_envelope_text (err : JSValue) :
  JSON.stringify (error_envelope err) <> JSON.Omitted.
Proof.
  unfold JSON.stringify, error_envelope. simpl.
  match goal with |- context [JSON.serialize ?v] => destruct (JSON.serialize v) end;
    simpl; discriminate.
Qed.

(** ** The catch-all of [requestListener] *)

Section CatchAll.

Context {Context : Type}.
Variable isProd : bool.
Variable handle : Request.t Context -> Script.
Variable p : Process.
Variable r : IncomingMessage.t.

Lemma listener_unfold (w : World) :
  requestListener isProd handle w
  = match attempt handle w with
    | (Thrown e, w') => recover isProd e w'
    | other => other
    end.
Proof. reflexivity. Qed.

(** A fault of the try block is logged once, whatever becomes of the
    response; the catch block touches neither the stream nor the record
    of handler invocations, ends the response at most once, and has
    ended it when the listener's promise fulfils. *)
Lemma listener_caught (e : JSValue) (w : World) :
  attempt handle (arrival p r) = (Thrown e, w) ->
  let result := requestListener isProd handle (arrival p r) in
  console (snd result) = [(log_message, e)]
  /\ req (snd result) = req w
  /\ handled (snd result) = handled w
  /\ (length (ServerResponse.ended (res (snd result))) <= 1)%nat
  /\ (fst result = Returned tt -> length (ServerResponse.ended (res (snd result))) = 1%nat)
  /\ fst result <> Suspended.
Proof.
  intros H. destruct (attempt_thrown _ _ _ H) as (Hp & Hhead & Hended & Hcon).
  cbv zeta. rewrite listener_unfold, H.
  destruct (ServerResponse.poisoned (res w)) eqn:Hpoison.
  - rewrite recover_poisoned by assumption. simpl. rewrite Hcon, Hended. simpl.
    repeat split; auto; discriminate.
  - destruct isProd.
    + rewrite recover_production by assumption. simpl. rewrite Hcon, Hended.
      repeat split; auto; discriminate.
    + rewrite recover_development by assumption.
      destruct (JSON.stringify (error_envelope e)) as [text| |[message|thrown]]; simpl;
        rewrite Hcon, Hended; repeat split; auto; discriminate.
Qed.

(** When the response holds no refused reason phrase, the fault is
    answered with a 500 head, and the listener's promise can only reject
    outside production, with what [JSON.stringify] throws. *)
Lemma listener_caught_clean (e : JSValue) (w : World) :
  attempt handle (arrival p r) = (Thrown e, w) ->
  ServerResponse.poisoned (res w) = false ->
  let result := requestListener isProd handle (arrival p r) in
  option_map ServerResponse.statusCode (ServerResponse.head (res (snd result))) = Some 500
  /\ option_map ServerResponse.headers (ServerResponse.head (res (snd result)))
     = Some (if isProd then None else Some json_headers)
  /\ (forall e', fst result = Thrown e' ->
      isProd = false /\ serialisable (error_envelope e) = false).
Proof.
  intros H Hclean. destruct (attempt_thrown _ _ _ H) as (Hp & Hhead & Hended & Hcon).
  cbv zeta. rewrite listener_unfold, H.
  destruct isProd.
  - rewrite recover_production by assumption. simpl.
    repeat split; auto; discriminate.
  - rewrite recover_development by assumption. unfold serialisable.
    destruct (JSON.stringify (error_envelope e)) as [text| |[message|thrown]]; simpl;
      repeat split; auto; discriminate.
Qed.

End CatchAll.

Lemma truthy_present (x : option string) (s : string) :
  x = Some s -> s <> "" -> truthy x = Some s.
Proof. intros -> H. destruct s; [congruence | reflexivity]. Qed.

Lemma truthy_missing (x : option string) :
  x = None \/ x = Some "" -> truthy x = None.
Proof. intros [-> | ->]; reflexivity. Qed.

(** ** The success path *)

(** C1, as amended: for a request with a non-empty URL and a non-empty
    method and a handler that resolves with [[text, init]], where
    [init.status] is an integer from 100 to 999 and the host's
    [writeHead] accepts [init] (it does not throw: the status text and
    the header values are free of the characters it forbids, the header
    names are HTTP tokens, and a [Trailer] header comes with a chunked
    message), the response carries exactly [init.status],
    [init.statusText] (the standard phrase of the status when there is
    none) and [init.headers], is ended once with exactly [text], the
    listener's promise fulfils and nothing is logged. *)
Theorem success_response_forwarded
    {Context : Type} (isProd : bool) (handle : Request.t Context -> Script)
    (p : Process) (r : IncomingMessage.t) (u m text : string) (init : ResponseInit.t) :
  IncomingMessage.url r = Some u -> u <> "" ->
  IncomingMessage.method r = Some m -> m <> "" ->
  handler_settles handle u m r = Fulfilled (text, init) ->
  100 <= Number.value (ResponseInit.status init) <= 999 ->
  host_refusal r init = None ->
  let result := requestListener isProd handle (arrival p r) in
  fst result = Returned tt
  /\ ServerResponse.head (res (snd result))
     = Some {| ServerResponse.statusCode := Number.value (ResponseInit.status init);
               ServerResponse.statusMessage :=
                 match ResponseInit.statusText init with
                 | Some reason => ServerResponse.Given reason
                 | None => ServerResponse.Standard (Number.value (ResponseInit.status init))
                 end;
               ServerResponse.headers := Some (ResponseInit.headers init) |}
  /\ ServerResponse.ended (res (snd result)) = [Some text]
  /\ console (snd result) = [].
Proof.
  intros Hu Hu' Hm Hm' Hrun Hrange Haccepted. cbv zeta.
  assert (Number.toInt32 (ResponseInit.status init) = Number.value (ResponseInit.status init))
    as Hcode by (apply toInt32_small; lia).
  unfold host_refusal in Haccepted.
  rewrite listener_unfold.
  rewrite (attempt_handled handle p r (truthy_present Hu Hu') (truthy_present Hm Hm')).
  cbv zeta. unfold handler_settles in Hrun. rewrite Hrun. simpl snd. simpl fst.
  rewrite Haccepted. simpl.
  rewrite (writeHead_accepted _ _ _ _ _ Haccepted), writeHead_ended, Hcode.
  unfold ServerResponse.reason_phrase. simpl. auto.
Qed.

Lemma success_response_forwarded_witness :
  let result := requestListener false echo_handler (arrival development post_graphql) in
  fst result = Returned tt
  /\ ServerResponse.head (res (snd result))
     = Some {| ServerResponse.statusCode := 200;
               ServerResponse.statusMessage := ServerResponse.Standard 200;
               ServerResponse.headers := Some [("content-type", "application/json")] |}
  /\ ServerResponse.ended (res (snd result)) = [Some "{__typename}"]
  /\ console (snd result) = [].
Proof.
  apply (@success_response_forwarded unit false echo_handler development post_graphql
           "/graphql" "POST" "{__typename}" ok_json);
    solve [reflexivity | discriminate | simpl; lia].
Defined.

(** C1, as stated, fails: the handler resolves with the valid status
    code 200 and a header whose name is no HTTP token, the host's
    [writeHead] refuses it, and the response that goes out is the 500 of
    the catch block, not what the handler returned. *)
Lemma success_write_refused_by_host :
  let r := post_graphql in
  let result := requestListener false bad_header_handler (arrival development r) in
  handler_settles bad_header_handler "/graphql" "POST" r = Fulfilled ("ok", bad_header)
  /\ Number.value (ResponseInit.status bad_header) = 200
  /\ option_map ServerResponse.statusCode (ServerResponse.head (res (snd result))) = Some 500
  /\ ServerResponse.ended (res (snd result)) <> [Some "ok"].
Proof.
  cbv zeta. repeat split; try reflexivity. vm_compute. discriminate.
Qed.

(** ** Missing request fields *)

(** C4: when the URL or the method is missing (absent, or the empty
    string), the handler is never invoked and the response has status
    500; the listener's promise fulfils. *)
Theorem missing_field_is_500
    {Context : Type} (isProd : bool) (handle : Request.t Context -> Script)
    (p : Process) (r : IncomingMessage.t) :
  IncomingMessage.url r = None \/ IncomingMessage.url r = Some ""
  \/ IncomingMessage.method r = None \/ IncomingMessage.method r = Some "" ->
  let result := requestListener isProd handle (arrival p r) in
  handled (snd result) = []
  /\ option_map ServerResponse.statusCode (ServerResponse.head (res (snd result))) = Some 500
  /\ fst result = Returned tt.
Proof.
  intros Hmissing.
  assert (exists message,
             attempt handle (arrival p r)
             = (Thrown (JSError message (captureStack p message)), arrival p r))
    as [message Hthrown].
  { destruct (truthy (IncomingMessage.url r)) as [u|] eqn:Hu.
    - exists "Missing request method". apply (attempt_missing_method handle p r Hu).
      destruct Hmissing as [H|[H|H]].
      + rewrite H in Hu. discriminate.
      + rewrite H in Hu. discriminate.
      + apply truthy_missing. exact H.
    - exists "Missing request URL". now apply attempt_missing_url. }
  destruct (listener_caught isProd handle p r Hthrown)
    as (_ & _ & Hhandled & _ & _ & Hsettles).
  destruct (listener_caught_clean isProd handle p r Hthrown eq_refl)
    as (Hstatus & _ & Hrejects).
  cbv zeta in *. repeat split; try assumption.
  destruct (fst (requestListener isProd handle (arrival p r))) as [[]|e'|] eqn:E.
  - reflexivity.
  - destruct (Hrejects e' eq_refl) as [_ Hnone].
    rewrite stringify_error_envelope in Hnone. discriminate.
  - elim Hsettles. reflexivity.
Qed.

Lemma missing_field_is_500_witness :
  let result :=
    requestListener false echo_handler
      (arrival development (IncomingMessage.incoming (Some "") (Some "POST") [] ["{}"])) in
  handled (snd result) = []
  /\ option_map ServerResponse.statusCode (ServerResponse.head (res (snd result))) = Some 500
  /\ fst result = Returned tt.
Proof.
  apply (@missing_field_is_500 unit false echo_handler development
           (IncomingMessage.incoming (Some "") (Some "POST") [] ["{}"])).
  right. left. reflexivity.
Defined.

(** ** Where faults come from, and what the listener leaves behind *)

Section Faults.

Context {Context : Type}.
Variable handle : Request.t Context -> Script.
Variable p : Process.
Variable r : IncomingMessage.t.

(** A fault of the try block was made with [new Error] by the listener
    or the host, or it is what the invoked handler failed with. *)
Lemma attempt_thrown_origin (e : JSValue) (w : World) :
  attempt handle (arrival p r) = (Thrown e, w) ->
  (exists message, e = JSError message (captureStack p message))
  \/ (exists u m,
        truthy (IncomingMessage.url r) = Some u
        /\ truthy (IncomingMessage.method r) = Some m
        /\ handler_settles handle u m r = Rejected e
        /\ res w = ServerResponse.fresh).
Proof.
  unfold handler_settles.
  destruct (truthy (IncomingMessage.url r)) as [u|] eqn:Hu.
  2:{ rewrite attempt_missing_url by exact Hu. intros H. inversion H. eauto. }
  destruct (truthy (IncomingMessage.method r)) as [m|] eqn:Hm.
  2:{ rewrite (attempt_missing_method handle p r Hu Hm). intros H. inversion H. eauto. }
  rewrite (attempt_handled handle p r Hu Hm). cbv zeta.
  destruct (fst (run_script _ _ r)) as [result|e'|] eqn:E; try discriminate.
  - destruct (fst (ServerResponse.writeHead _ _ _ _ _)); intros H; inversion H; eauto.
  - intros H; inversion H; subst. right. exists u, m. auto.
Qed.

(** A handler that fails makes the try block throw what it failed
    with, before anything was done to the response. *)
Lemma attempt_handler_fault (u m : string) (e : JSValue) :
  truthy (IncomingMessage.url r) = Some u ->
  truthy (IncomingMessage.method r) = Some m ->
  handler_settles handle u m r = Rejected e ->
  exists w, attempt handle (arrival p r) = (Thrown e, w) /\ res w = ServerResponse.fresh.
Proof.
  intros Hu Hm H. unfold handler_settles in H. cbv zeta in H.
  rewrite (attempt_handled handle p r Hu Hm). cbv zeta. rewrite H. eauto.
Qed.

(** The handler is invoked at most once, on the descriptor built from
    the request as it arrived, and only the handler's script touches
    the stream. *)
Lemma attempt_invocations :
  (handled (snd (attempt handle (arrival p r))) = []
   /\ req (snd (attempt handle (arrival p r))) = r)
  \/ (exists u m,
        handled (snd (attempt handle (arrival p r))) = [descriptor u m r]
        /\ req (snd (attempt handle (arrival p r)))
           = snd (run_script (Context := Context) (descriptor u m r)
                    (handle (descriptor u m r)) r)).
Proof.
  destruct (truthy (IncomingMessage.url r)) as [u|] eqn:Hu.
  2:{ rewrite attempt_missing_url by exact Hu. left. split; reflexivity. }
  destruct (truthy (IncomingMessage.method r)) as [m|] eqn:Hm.
  2:{ rewrite (attempt_missing_method handle p r Hu Hm). left. split; reflexivity. }
  right. exists u, m.
  rewrite (attempt_handled handle p r Hu Hm). cbv zeta.
  destruct (fst (run_script _ _ r)) as [result|e'|];
    [destruct (fst (ServerResponse.writeHead _ _ _ _ _))| |]; split; reflexivity.
Qed.

(** The catch block touches neither the stream nor the record of
    handler invocations. *)
Lemma listener_keeps_request (isProd : bool) :
  req (snd (requestListener isProd handle (arrival p r)))
  = req (snd (attempt handle (arrival p r)))
  /\ handled (snd (requestListener isProd handle (arrival p r)))
     = handled (snd (attempt handle (arrival p r))).
Proof.
  destruct (attempt handle (arrival p r)) as [[[]|e|] w] eqn:E.
  - rewrite listener_unfold, E. split; reflexivity.
  - destruct (listener_caught isProd handle p r E) as (_ & Hreq & Hhandled & _).
    split; assumption.
  - rewrite listener_unfold, E. split; reflexivity.
Qed.


End Faults.

(** ** Containment of faults *)




(** ** The error responses *)

(** C5, as amended: outside production, when the handler throws or
    rejects with a value [e] whose envelope [{errors: [payload]}]
    [JSON.stringify] can serialise, the response has status 500, the
    single header [content-type: application/json; charset=utf-8] and
    that JSON text as its body, where the payload is [{message, stack}]
    for an error object and the raw value otherwise. *)
Theorem development_fault_response
    {Context : Type} (handle : Request.t Context -> Script)
    (p : Process) (r : IncomingMessage.t) (u m : string) (e : JSValue) (text : string) :
  IncomingMessage.url r = Some u -> u <> "" ->
  IncomingMessage.method r = Some m -> m <> "" ->
  handler_settles handle u m r = Rejected e ->
  JSON.stringify (spec_envelope e) = JSON.Text text ->
  let result := requestListener false handle (arrival p r) in
  fst result = Returned tt
  /\ ServerResponse.head (res (snd result))
     = Some {| ServerResponse.statusCode := 500;
               ServerResponse.statusMessage := ServerResponse.Standard 500;
               ServerResponse.headers :=
                 Some [("content-type", "application/json; charset=utf-8")] |}
  /\ ServerResponse.ended (res (snd result)) = [Some text].
Proof.
  intros Hu Hu' Hm Hm' Hrun Htext. cbv zeta.
  rewrite <- error_envelope_spec in Htext.
  rewrite listener_unfold.
  rewrite (attempt_handled handle p r (truthy_present Hu Hu') (truthy_present Hm Hm')).
  cbv zeta. unfold handler_settles in Hrun. cbv zeta in Hrun. rewrite Hrun.
  rewrite recover_development by reflexivity. rewrite Htext. simpl. auto.
Qed.

Lemma development_fault_response_witness :
  let result := requestListener false (failing_handler (JSError "boom" None))
                  (arrival development post_graphql) in
  fst result = Returned tt
  /\ ServerResponse.head (res (snd result))
     = Some {| ServerResponse.statusCode := 500;
               ServerResponse.statusMessage := ServerResponse.Standard 500;
               ServerResponse.headers :=
                 Some [("content-type", "application/json; charset=utf-8")] |}
  /\ ServerResponse.ended (res (snd result))
     = [Some (String.concat JSON.dquote ["{"; "errors"; ":[{"; "message"; ":"; "boom"; "}]}"])].
Proof.
  apply (@development_fault_response unit (failing_handler (JSError "boom" None))
           development post_graphql "/graphql" "POST" (JSError "boom" None));
    solve [reflexivity | discriminate].
Defined.

(** C5, as stated, fails: outside production a handler that rejects
    with a BigInt gets the 500 head but no body at all; the response is
    never ended. *)
Lemma bigint_fault_has_no_body :
  let result := requestListener false (failing_handler (JSBigInt 1))
                  (arrival development post_graphql) in
  handler_settles (failing_handler (JSBigInt 1)) "/graphql" "POST" post_graphql
  = Rejected (JSBigInt 1)
  /\ ServerResponse.ended (res (snd result)) = []
  /\ fst result <> Returned tt.
Proof. cbv zeta. repeat split; try reflexivity. vm_compute. discriminate. Qed.




(** ** Side effects of one cycle *)

(** C7, as amended: in every cycle the response is ended at most once,
    and exactly once whenever the listener's promise fulfils; exactly one
    log entry is written when the try block throws and none otherwise;
    the stream hands out each chunk at most once, in arrival order. *)
Theorem cycle_side_effects
    {Context : Type} (isProd : bool) (handle : Request.t Context -> Script)
    (p : Process) (r : IncomingMessage.t) :
  let result := requestListener isProd handle (arrival p r) in
  (length (ServerResponse.ended (res (snd result))) <= 1)%nat
  /\ (fst result = Returned tt -> length (ServerResponse.ended (res (snd result))) = 1%nat)
  /\ length (console (snd result))
     = match fst (attempt handle (arrival p r)) with
       | Thrown _ => 1%nat
       | _ => 0%nat
       end
  /\ (IncomingMessage.emitted (req (snd result)) ++ IncomingMessage.pending (req (snd result))
      = IncomingMessage.emitted r ++ IncomingMessage.pending r)%list.
Proof.
  cbv zeta.
  destruct (listener_keeps_request handle p r isProd) as [Hreq _].
  rewrite Hreq, attempt_conserves.
  destruct (attempt handle (arrival p r)) as [[[]|e|] w] eqn:E; simpl fst.
  - rewrite listener_unfold, E. simpl.
    destruct (attempt_returned handle p r E) as [Hcon Hone].
    rewrite Hcon, Hone. auto.
  - pose proof (listener_caught isProd handle p r E) as Hcaught. cbv zeta in Hcaught.
    destruct Hcaught as (Hcon & _ & _ & Hmost & Hone & _).
    rewrite Hcon. auto.
  - rewrite listener_unfold, E. simpl.
    destruct (attempt_suspended handle p r E) as [Hres Hcon].
    rewrite Hres, Hcon. simpl. repeat split; auto. discriminate.
Qed.

(** C7, as stated, fails: a handler whose promise never settles leaves
    the response unwritten, and a handler that rejects with a BigInt
    outside production leaves it with a head but never ended; in both
    cycles the number of write-and-terminate calls is zero. *)
Lemma cycle_without_termination :
  length (ServerResponse.ended
            (res (snd (requestListener false stuck_handler
                         (arrival development post_graphql))))) = 0%nat
  /\ length (ServerResponse.ended
               (res (snd (requestListener false (failing_handler (JSBigInt 1))
                            (arrival development post_graphql))))) = 0%nat.
Proof. split; reflexivity. Qed.

(** ** The body accessor *)

(** C3, as amended: every call of [body()] makes a new, unresolved
    promise and registers a new pair of listeners on the stream.  When
    the stream has not ended, draining it resolves that promise to the
    concatenation, in arrival order, of the chunks that were still
    pending at the call (all chunks received, when nothing had been
    emitted before), and the promise keeps that value afterwards.  When
    the stream has already ended, the promise is never resolved. *)
Theorem body_resolves_to_concatenation (r : IncomingMessage.t) :
  let p := fst (body r) in
  let r' := snd (body r) in
  IncomingMessage.promise r' p = None
  /\ length (IncomingMessage.subscriptions r') = S (length (IncomingMessage.subscriptions r))
  /\ (IncomingMessage.ended r = false ->
      IncomingMessage.promise (IncomingMessage.drain r') p
      = Some (String.concat "" (IncomingMessage.pending r))
      /\ IncomingMessage.emitted (IncomingMessage.drain r')
         = (IncomingMessage.emitted r ++ IncomingMessage.pending r)%list
      /\ IncomingMessage.promise (IncomingMessage.deliver (IncomingMessage.drain r')) p
         = Some (String.concat "" (IncomingMessage.pending r)))
  /\ (IncomingMessage.ended r = true ->
      forall turns, IncomingMessage.promise (IncomingMessage.deliver_all turns r') p = None).
Proof.
  cbv zeta.
  assert (IncomingMessage.promise (snd (body r)) (fst (body r)) = None) as Hnew.
  { unfold IncomingMessage.promise. rewrite body_fst, body_subscriptions, promise_last.
    reflexivity. }
  split; [exact Hnew|].
  split; [rewrite body_subscriptions, length_app; simpl; lia|].
  split.
  - intros He.
    assert (IncomingMessage.subscriptions (snd (body r)) <> []) as Hflow.
    { simpl. destruct (IncomingMessage.subscriptions r); discriminate. }
    assert (IncomingMessage.promise (IncomingMessage.drain (snd (body r))) (fst (body r))
            = Some (String.concat "" (IncomingMessage.pending r))) as Hdrained.
    { rewrite drain_flowing by assumption.
      unfold IncomingMessage.promise. simpl.
      rewrite nth_error_map, promise_last. reflexivity. }
    split; [exact Hdrained|]. split.
    + rewrite drain_flowing by assumption. reflexivity.
    + apply promise_deliver. exact Hdrained.
  - intros He turns. rewrite deliver_all_fixed; [exact Hnew|].
    apply deliver_ended. exact He.
Qed.

(** C3, as stated, fails: nothing is memoised.  A second call of
    [body()], made after the first promise was awaited, gets a different
    promise, registers a second pair of listeners on the stream, and its
    promise is never resolved; the cycle of a handler that does so stays
    suspended. *)
Lemma body_is_not_memoised :
  let first := body post_graphql in
  let drained := IncomingMessage.drain (snd first) in
  let second := body drained in
  IncomingMessage.promise drained (fst first) = Some "{__typename}"
  /\ fst second <> fst first
  /\ length (IncomingMessage.subscriptions (snd second)) = 2%nat
  /\ IncomingMessage.promise (IncomingMessage.drain (snd second)) (fst second) = None
  /\ fst (requestListener false reread_handler (arrival development post_graphql)) = Suspended.
Proof. cbv zeta. repeat split; try reflexivity. vm_compute. discriminate. Qed.

(** C8: building the descriptor and running the cycle of a handler that
    never calls [body()] leaves the inbound stream exactly as it
    arrived: no listener registered, nothing emitted, not ended; the
    descriptor handed to the handler refers to that untouched stream. *)
Theorem body_is_lazy
    {Context : Type} (isProd : bool) (handle : Request.t Context -> Script)
    (p : Process) (r : IncomingMessage.t) :
  IncomingMessage.subscriptions r = [] ->
  (forall d, never_calls_body (handle d)) ->
  let result := requestListener isProd handle (arrival p r) in
  req (snd result) = r
  /\ Forall (fun d => Request.raw d = r) (handled (snd result)).
Proof.
  intros Hpaused Hlazy. cbv zeta.
  destruct (listener_keeps_request handle p r isProd) as [Hreq Hhandled].
  rewrite Hreq, Hhandled.
  destruct (attempt_invocations handle p r) as [[Hnone Hsame] | (u & m & Hone & Hrun)].
  - rewrite Hnone, Hsame. split; [reflexivity | constructor].
  - rewrite Hone, Hrun. split.
    + apply run_script_lazy; [apply Hlazy | exact Hpaused].
    + repeat constructor.
Qed.

Lemma body_is_lazy_witness :
  let result := requestListener false static_handler (arrival development post_graphql) in
  req (snd result) = post_graphql
  /\ Forall (fun d => Request.raw d = post_graphql) (handled (snd result)).
Proof.
  apply (@body_is_lazy unit false static_handler development post_graphql).
  - reflexivity.
  - intros d. unfold static_handler. apply ncb_tick. apply ncb_resolve.
Defined.

(** ** The descriptor's context *)

(** C9: whatever the [Context] type parameter, every descriptor handed
    to the handler has [context] equal to [undefined]; and a request
    with both fields present does reach the handler, once, with the
    descriptor built from it. *)
Theorem context_is_undefined
    {Context : Type} (isProd : bool) (handle : Request.t Context -> Script)
    (p : Process) (r : IncomingMessage.t) :
  let result := requestListener isProd handle (arrival p r) in
  Forall (fun d => Request.context d = None) (handled (snd result))
  /\ (forall u m,
        truthy (IncomingMessage.url r) = Some u ->
        truthy (IncomingMessage.method r) = Some m ->
        handled (snd result) = [descriptor u m r]).
Proof.
  cbv zeta.
  destruct (listener_keeps_request handle p r isProd) as [_ Hhandled].
  rewrite Hhandled. split.
  - destruct (attempt_invocations handle p r) as [[Hnone _] | (u & m & Hone & _)].
    + rewrite Hnone. constructor.
    + rewrite Hone. repeat constructor.
  - intros u m Hu Hm. rewrite (attempt_handled handle p r Hu Hm). cbv zeta.
    destruct (fst (run_script _ _ r)) as [result|e|];
      [destruct (fst (ServerResponse.writeHead _ _ _ _ _))| |]; reflexivity.
Qed.

(** ** The production flag *)

(** The catch block reads nothing of the environment. *)
Lemma recover_ignores_env
    {Context : Type} (isProd : bool) (e : JSValue) (w : World (Context := Context))
    (later : string -> option string) :
  ServerResponse.head (res w) = None ->
  observable (recover isProd e
                {| process := with_env (process w) later; req := req w; res := res w;
                   console := console w; handled := handled w |})
  = observable (recover isProd e w).
Proof.
  intros Hunsent.
  destruct (ServerResponse.poisoned (res w)) eqn:Hpoison.
  - rewrite !recover_poisoned by assumption. reflexivity.
  - destruct isProd.
    + rewrite !recover_production by assumption. reflexivity.
    + rewrite !recover_development by assumption.
      destruct (JSON.stringify (error_envelope e)) as [text| |[message|thrown]]; reflexivity.
Qed.

(** Nothing in a cycle reads the environment of the process it runs in. *)
Lemma listener_ignores_env
    {Context : Type} (isProd : bool) (handle : Request.t Context -> Script)
    (p : Process) (later : string -> option string) (r : IncomingMessage.t) :
  observable (requestListener isProd handle (arrival (with_env p later) r))
  = observable (requestListener isProd handle (arrival p r)).
Proof.
  rewrite !listener_unfold.
  destruct (truthy (IncomingMessage.url r)) as [u|] eqn:Hu.
  2:{ rewrite !attempt_missing_url by exact Hu.
      apply (recover_ignores_env isProd _ (arrival p r) later). reflexivity. }
  destruct (truthy (IncomingMessage.method r)) as [m|] eqn:Hm.
  2:{ rewrite !(attempt_missing_method handle _ r Hu Hm).
      apply (recover_ignores_env isProd _ (arrival p r) later). reflexivity. }
  rewrite !(attempt_handled handle _ r Hu Hm). cbv zeta.
  destruct (fst (run_script _ _ r)) as [result|e|]; try reflexivity.
  - destruct (fst (ServerResponse.writeHead _ _ _ _ _)) as [message|] eqn:Hcall;
      [|reflexivity].
    match goal with
    | |- _ = observable (recover _ _ ?w) =>
        apply (recover_ignores_env isProd _ w later)
    end.
    simpl. eapply writeHead_refused; [reflexivity | exact Hcall].
  - match goal with
    | |- _ = observable (recover _ _ ?w) =>
        apply (recover_ignores_env isProd _ w later)
    end.
    reflexivity.
Qed.

(** C10: the flag is [process.env.NODE_ENV === 'production'] evaluated
    in the process in which [createHandler] is called; a cycle of the
    returned listener run after the environment was changed behaves as
    the cycle with the captured flag does. *)
Theorem production_flag_captured
    {Context : Type} (Options : Type)
    (createRawHandler : Options -> Request.t Context -> Script)
    (created_in : Process) (options : Options) :
  (is_production created_in = true <-> env created_in "NODE_ENV" = Some "production")
  /\ forall (later : string -> option string) (p : Process) (r : IncomingMessage.t),
       observable (createHandler createRawHandler created_in options
                     (arrival (with_env p later) r))
       = observable (requestListener (is_production created_in) (createRawHandler options)
                       (arrival p r)).
Proof.
  split.
  - unfold is_production. destruct (env created_in "NODE_ENV") as [v|].
    + rewrite String.eqb_eq. split; [intros ->; reflexivity | intros H; now inversion H].
    + split; discriminate.
  - intros later p r. unfold createHandler. apply listener_ignores_env.
Qed.

(** ** The scenarios of the specification *)

Example scenario_post_graphql :
  let handler (d : Request.t unit) : Script :=
    Resolve "{data}" ok_json in
  let result := requestListener false handler (arrival development post_graphql) in
  ServerResponse.head (res (snd result)) = Some (head_of_init ok_json)
  /\ ServerResponse.ended (res (snd result)) = [Some "{data}"].
Proof. split; reflexivity. Qed.

Example scenario_empty_url :
  let result := requestListener true echo_handler
                  (arrival production (IncomingMessage.incoming (Some "") (Some "POST") [] [])) in
  handled (snd result) = []
  /\ ServerResponse.head (res (snd result)) = Some bare_500
  /\ ServerResponse.ended (res (snd result)) = [None].
Proof. repeat split. Qed.

Example production_is_case_sensitive :
  is_production (node_process (Some "Production")) = false
  /\ is_production production = true
  /\ is_production development = false.
Proof. repeat split. Qed.

Example captured_flag_survives_env_change :
  let result := createHandler (fun (_ : unit) => failing_handler (JSString "boom"))
                  production tt (arrival development post_graphql) in
  ServerResponse.head (res (snd result)) = Some bare_500
  /\ ServerResponse.ended (res (snd result)) = [None].
Proof. split; reflexivity. Qed.

(** After a refused header the 500 goes out under the reason phrase the
    handler gave. *)
Example fallback_keeps_handler_phrase :
  let teapot : ResponseInit.t :=
    {| ResponseInit.status := Number.make 418 eq_refl;
       ResponseInit.statusText := Some "Teapot";
       ResponseInit.headers := [("x trace", "1")] |} in
  let handler (d : Request.t unit) : Script := Resolve "ok" teapot in
  ServerResponse.head
    (res (snd (requestListener true handler (arrival production post_graphql))))
  = Some {| ServerResponse.statusCode := 500;
            ServerResponse.statusMessage := ServerResponse.Given "Teapot";
            ServerResponse.headers := None |}.
Proof. reflexivity. Qed.

(** Without a status text it goes out under the standard phrase of the
    status the handler gave. *)
Example fallback_keeps_standard_phrase :
  fallback_phrase bad_header = ServerResponse.Standard 200
  /\ ServerResponse.head
       (res (snd (requestListener true bad_header_handler (arrival production post_graphql))))
     = Some {| ServerResponse.statusCode := 500;
               ServerResponse.statusMessage := ServerResponse.Standard 200;
               ServerResponse.headers := None |}.
Proof. split; reflexivity. Qed.

(** [statusCode |= 0] wraps a status code into 32 bits before the range
    test. *)
Example status_code_wraps :
  let wrapped : ResponseInit.t :=
    {| ResponseInit.status := Number.make (2 ^ 32 + 200) eq_refl;
       ResponseInit.statusText := None;
       ResponseInit.headers := [] |} in
  let handler (d : Request.t unit) : Script := Resolve "ok" wrapped in
  option_map ServerResponse.statusCode
    (ServerResponse.head
       (res (snd (requestListener true handler (arrival production post_graphql)))))
  = Some 200.
Proof. reflexivity. Qed.

(** A [Trailer] header goes with a chunked message only. *)
Example trailer_framing :
  let answer (fields : Headers) : ResponseInit.t :=
    {| ResponseInit.status := Number.make 200 eq_refl;
       ResponseInit.statusText := None;
       ResponseInit.headers := fields |} in
  let head_graphql :=
    IncomingMessage.incoming (Some "/graphql") (Some "HEAD") [] [] in
  host_refusal post_graphql (answer [("Trailer", "x-sum")]) = None
  /\ host_refusal post_graphql (answer [("Trailer", "x-sum"); ("Content-Length", "2")])
     = Some "Trailers are invalid with this transfer encoding"
  /\ host_refusal post_graphql
       (answer [("Trailer", "x-sum"); ("Transfer-Encoding", "gzip, Chunked")]) = None
  /\ host_refusal head_graphql (answer [("Trailer", "x-sum")])
     = Some "Trailers are invalid with this transfer encoding".
Proof. repeat split. Qed.

Example chunked_expression :
  ServerResponse.mentions_chunked "chunked" = true
  /\ ServerResponse.mentions_chunked "gzip,CHUNKED " = true
  /\ ServerResponse.mentions_chunked "chunkedness" = false
  /\ ServerResponse.mentions_chunked "unchunked" = false.
Proof. repeat split. Qed.

Example header_value_high_code_units :
  ServerResponse.valid_header ("x-name", String "233"%char "t") = true
  /\ ServerResponse.valid_header ("x-name", String "010"%char "t") = false.
Proof. split; reflexivity. Qed.

Example stringify_escapes :
  JSON.stringify (JSArray [JSString (JSON.dquote ++ "a"); JSUndefined;
                           JSNumber (Number.make (-3) eq_refl); JSBool true;
                           JSOpaque (Some "1e+21"); JSOpaque None])
  = JSON.Text ("[" ++ JSON.dquote ++ JSON.backslash ++ JSON.dquote ++ "a" ++ JSON.dquote
                 ++ ",null,-3,true,1e+21,null]").
Proof. reflexivity. Qed.

Example stringify_first_throw_wins :
  JSON.stringify (JSObject [("a", JSUnserialisable (JSString "mine")); ("b", JSBigInt 1)])
  = JSON.Raises (JSON.UserValue (JSString "mine")).
Proof. reflexivity. Qed.

(** ** The whole cycle, case by case *)

Section Cases.

Context {Context : Type}.
Variable isProd : bool.
Variable handle : Request.t Context -> Script.
Variable p : Process.
Variable r : IncomingMessage.t.

(** The try block is suspended exactly when the handler never
    settles. *)
Lemma attempt_suspended_iff :
  fst (attempt handle (arrival p r)) = Suspended
  <-> exists u m,
        truthy (IncomingMessage.url r) = Some u
        /\ truthy (IncomingMessage.method r) = Some m
        /\ handler_settles handle u m r = Pending.
Proof.
  unfold handler_settles.
  destruct (truthy (IncomingMessage.url r)) as [u|] eqn:Hu.
  2:{ rewrite attempt_missing_url by exact Hu. simpl.
      split; [discriminate | intros (u & m & H & _); discriminate]. }
  destruct (truthy (IncomingMessage.method r)) as [m|] eqn:Hm.
  2:{ rewrite (attempt_missing_method handle p r Hu Hm). simpl.
      split; [discriminate | intros (u' & m' & _ & H & _); discriminate]. }
  rewrite (attempt_handled handle p r Hu Hm). cbv zeta.
  split.
  - intros H. exists u, m. repeat split.
    destruct (fst (run_script _ _ r)) as [result|e|];
      [destruct (fst (ServerResponse.writeHead _ _ _ _ _))| |]; try discriminate.
    reflexivity.
  - intros (u' & m' & Hu' & Hm' & H). inversion Hu'. inversion Hm'. subst.
    rewrite H. reflexivity.
Qed.

(** The catch block never turns a fault into a suspended cycle. *)
Lemma listener_suspended_iff :
  fst (requestListener isProd handle (arrival p r)) = Suspended
  <-> fst (attempt handle (arrival p r)) = Suspended.
Proof.
  destruct (attempt handle (arrival p r)) as [[[]|e|] w] eqn:E.
  - rewrite listener_unfold, E. simpl. tauto.
  - destruct (listener_caught isProd handle p r E) as (_ & _ & _ & _ & _ & Hns).
    simpl. split; [intros H; contradiction | discriminate].
  - rewrite listener_unfold, E. simpl. tauto.
Qed.

(** A try block that returns has written the head the handler resolved
    with, the status code wrapped into 32 bits, and ended the response
    with the handler's body. *)
Lemma attempt_returned_head (w : World) :
  attempt handle (arrival p r) = (Returned tt, w) ->
  exists u m text init,
    truthy (IncomingMessage.url r) = Some u
    /\ truthy (IncomingMessage.method r) = Some m
    /\ handler_settles handle u m r = Fulfilled (text, init)
    /\ ServerResponse.head (res w)
       = Some {| ServerResponse.statusCode := Number.toInt32 (ResponseInit.status init);
                 ServerResponse.statusMessage :=
                   match ResponseInit.statusText init with
                   | Some reason => ServerResponse.Given reason
                   | None => ServerResponse.Standard (Number.toInt32 (ResponseInit.status init))
                   end;
                 ServerResponse.headers := Some (ResponseInit.headers init) |}
    /\ ServerResponse.ended (res w) = [Some text].
Proof.
  unfold handler_settles.
  destruct (truthy (IncomingMessage.url r)) as [u|] eqn:Hu.
  2:{ rewrite attempt_missing_url by exact Hu. discriminate. }
  destruct (truthy (IncomingMessage.method r)) as [m|] eqn:Hm.
  2:{ rewrite (attempt_missing_method handle p r Hu Hm). discriminate. }
  rewrite (attempt_handled handle p r Hu Hm). cbv zeta.
  destruct (fst (run_script _ _ r)) as [[text init]|e'|] eqn:E; try discriminate.
  simpl snd. simpl fst.
  destruct (fst (ServerResponse.writeHead _ _ _ _ _)) as [message|] eqn:Hcall;
    [discriminate|].
  intros H. inversion H. simpl.
  exists u, m, text, init. repeat split; auto.
  - rewrite (writeHead_accepted _ _ _ _ _ Hcall).
    destruct (ResponseInit.statusText init); reflexivity.
  - rewrite writeHead_ended. reflexivity.
Qed.

End Cases.

(** ** Further properties of the cycle *)

(** X1: the URL is checked before the method.  When a field is missing,
    the one fault logged is the error for the first missing field, and
    the inbound stream is left as it arrived. *)
Theorem missing_field_diagnostics
    {Context : Type} (isProd : bool) (handle : Request.t Context -> Script)
    (p : Process) (r : IncomingMessage.t) :
  truthy (IncomingMessage.url r) = None \/ truthy (IncomingMessage.method r) = None ->
  let result := requestListener isProd handle (arrival p r) in
  console (snd result)
  = [(log_message,
      JSError (missing_field_message r) (captureStack p (missing_field_message r)))]
  /\ req (snd result) = r.
Proof.
  intros Hmissing. cbv zeta. unfold missing_field_message.
  destruct (truthy (IncomingMessage.url r)) as [u|] eqn:Hu.
  - destruct Hmissing as [H|Hm]; [discriminate|].
    pose proof (listener_caught isProd handle p r (attempt_missing_method handle p r Hu Hm))
      as Hcaught.
    cbv zeta in Hcaught. destruct Hcaught as (Hcon & Hreq & _). split; assumption.
  - pose proof (listener_caught isProd handle p r (attempt_missing_url handle p r Hu))
      as Hcaught.
    cbv zeta in Hcaught. destruct Hcaught as (Hcon & Hreq & _). split; assumption.
Qed.

Lemma missing_field_diagnostics_witness :
  let r := IncomingMessage.incoming None None [] ["{}"] in
  let result := requestListener false echo_handler (arrival development r) in
  console (snd result)
  = [(log_message,
      JSError (missing_field_message r) (captureStack development (missing_field_message r)))]
  /\ req (snd result) = r.
Proof.
  apply (@missing_field_diagnostics unit false echo_handler development
           (IncomingMessage.incoming None None [] ["{}"])).
  left. reflexivity.
Defined.

(** X2: the listener's promise stays pending exactly when both fields
    are present and the handler's promise never settles; the response
    is then untouched and nothing is logged. *)
Theorem cycle_suspends_only_on_handler
    {Context : Type} (isProd : bool) (handle : Request.t Context -> Script)
    (p : Process) (r : IncomingMessage.t) :
  let result := requestListener isProd handle (arrival p r) in
  (fst result = Suspended <->
   exists u m,
     truthy (IncomingMessage.url r) = Some u
     /\ truthy (IncomingMessage.method r) = Some m
     /\ handler_settles handle u m r = Pending)
  /\ (fst result = Suspended ->
      res (snd result) = ServerResponse.fresh /\ console (snd result) = []).
Proof.
  cbv zeta. split.
  - rewrite listener_suspended_iff. apply attempt_suspended_iff.
  - intros H. rewrite listener_unfold.
    apply listener_suspended_iff in H.
    destruct (attempt handle (arrival p r)) as [o w] eqn:E. simpl in H. subst o.
    simpl. apply (attempt_suspended handle p r E).
Qed.

(** X3: the listener's promise rejects exactly in two cases: the
    invoked handler resolves with a status text that the host's
    [writeHead] stores and then refuses (in either mode), or, outside
    production, the invoked handler fails with a value whose envelope
    [JSON.stringify] cannot serialise.  When it rejects the response
    was never ended, and the fault of the try block has been logged. *)
Theorem listener_rejects_exactly_when
    {Context : Type} (isProd : bool) (handle : Request.t Context -> Script)
    (p : Process) (r : IncomingMessage.t) :
  let result := requestListener isProd handle (arrival p r) in
  ((exists e', fst result = Thrown e') <->
   (exists u m text init,
      truthy (IncomingMessage.url r) = Some u
      /\ truthy (IncomingMessage.method r) = Some m
      /\ handler_settles handle u m r = Fulfilled (text, init)
      /\ ServerResponse.keeps_refused_reason
           (ResponseInit.status init) (ResponseInit.statusText init) = true)
   \/ (isProd = false
       /\ exists u m e,
            truthy (IncomingMessage.url r) = Some u
            /\ truthy (IncomingMessage.method r) = Some m
            /\ handler_settles handle u m r = Rejected e
            /\ serialisable (error_envelope e) = false))
  /\ (forall e', fst result = Thrown e' ->
      ServerResponse.ended (res (snd result)) = []
      /\ length (console (snd result)) = 1%nat).
Proof.
  cbv zeta. split; [split|].
  - intros [e' Hrej].
    destruct (attempt handle (arrival p r)) as [[[]|e|] w] eqn:E;
      try (rewrite listener_unfold, E in Hrej; discriminate).
    destruct (ServerResponse.poisoned (res w)) eqn:Hpoison.
    + left. apply (attempt_poisoned handle p r E Hpoison).
    + right.
      destruct (listener_caught_clean isProd handle p r E Hpoison) as (_ & _ & Hwhy).
      destruct (Hwhy e' Hrej) as [Hdev Hnone]. split; [exact Hdev|].
      destruct (attempt_thrown_origin handle p r E)
        as [[message ->] | (u & m & Hu & Hm & H & _)].
      * rewrite stringify_error_envelope in Hnone. discriminate.
      * exists u, m, e. auto.
  - intros [(u & m & text & init & Hu & Hm & H & Hk)
           | (Hdev & u & m & e & Hu & Hm & H & Hnone)].
    + destruct (attempt_refused_reason handle p r Hu Hm H Hk) as (w & E & Hpoison).
      destruct (attempt_thrown handle p r E) as (_ & Hhead & _).
      rewrite listener_unfold, E, recover_poisoned by assumption. simpl. eauto.
    + subst isProd.
      destruct (attempt_handler_fault handle p r Hu Hm H) as (w & E & Hfresh).
      rewrite listener_unfold, E, recover_development by (rewrite Hfresh; reflexivity).
      unfold serialisable in Hnone.
      destruct (JSON.stringify (error_envelope e)) as [text| |[message|thrown]];
        try discriminate; simpl; eauto.
  - intros e' Hrej.
    destruct (attempt handle (arrival p r)) as [[[]|e|] w] eqn:E;
      try (rewrite listener_unfold, E in Hrej; discriminate).
    destruct (attempt_thrown handle p r E) as (_ & Hhead & Hended & Hcon).
    rewrite listener_unfold, E in Hrej |- *.
    destruct (ServerResponse.poisoned (res w)) eqn:Hpoison.
    + rewrite recover_poisoned by assumption. simpl. rewrite Hended, Hcon. auto.
    + destruct isProd.
      * rewrite recover_production in Hrej by assumption. discriminate.
      * rewrite recover_development in Hrej |- * by assumption.
        destruct (JSON.stringify (error_envelope e)) as [text| |[message|thrown]];
          try discriminate; simpl; rewrite Hended, Hcon; auto.
Qed.

(** X4: when the handler resolves with a head that the host's
    [writeHead] refuses, the host's error is the one fault logged.  If
    what was refused is the status text, the catch block's own
    [writeHead] throws too: the listener's promise rejects and nothing
    is written.  Otherwise (a status code or a header was refused) the
    promise fulfils and the response is the error response of the mode:
    status 500 without headers and body in production, status 500 with
    the JSON content type and the serialised host error otherwise, in
    both modes under the reason phrase that the refused call left on
    the response. *)
Theorem refused_head_outcome
    {Context : Type} (isProd : bool) (handle : Request.t Context -> Script)
    (p : Process) (r : IncomingMessage.t) (u m text message : string)
    (init : ResponseInit.t) :
  truthy (IncomingMessage.url r) = Some u ->
  truthy (IncomingMessage.method r) = Some m ->
  handler_settles handle u m r = Fulfilled (text, init) ->
  host_refusal r init = Some message ->
  let result := requestListener isProd handle (arrival p r) in
  console (snd result) = [(log_message, JSError message (captureStack p message))]
  /\ if ServerResponse.keeps_refused_reason
          (ResponseInit.status init) (ResponseInit.statusText init)
     then (exists e, fst result = Thrown e)
          /\ ServerResponse.head (res (snd result)) = None
          /\ ServerResponse.ended (res (snd result)) = []
     else fst result = Returned tt
          /\ option_map ServerResponse.statusCode (ServerResponse.head (res (snd result)))
             = Some 500
          /\ option_map ServerResponse.statusMessage (ServerResponse.head (res (snd result)))
             = Some (fallback_phrase init)
          /\ option_map ServerResponse.headers (ServerResponse.head (res (snd result)))
             = Some (if isProd then None else Some json_headers)
          /\ ServerResponse.ended (res (snd result))
             = [if isProd then None
                else Some (error_body message (captureStack p message))].
Proof.
  intros Hu Hm Hrun Hcall. cbv zeta.
  unfold handler_settles in Hrun. cbv zeta in Hrun. unfold host_refusal in Hcall.
  rewrite listener_unfold, (attempt_handled handle p r Hu Hm). cbv zeta.
  rewrite Hrun. simpl snd. simpl fst. rewrite Hcall.
  pose proof (writeHead_fresh_poisoned (head_request r) (ResponseInit.status init)
                (ResponseInit.statusText init) (Some (ResponseInit.headers init))) as Hp.
  pose proof (writeHead_refused _ _ _ _ ServerResponse.fresh eq_refl Hcall) as Hhead.
  pose proof (writeHead_ended (head_request r) (ResponseInit.status init)
                (ResponseInit.statusText init)
                (Some (ResponseInit.headers init)) ServerResponse.fresh) as Hended.
  destruct (ServerResponse.keeps_refused_reason _ _).
  - rewrite recover_poisoned by assumption. simpl. rewrite Hended. eauto.
  - pose proof (writeHead_fresh_phrase (head_request r) (ResponseInit.status init)
                  (ResponseInit.statusText init) (Some (ResponseInit.headers init)))
      as Hphrase.
    fold (fallback_phrase init) in Hphrase.
    destruct isProd.
    + rewrite recover_production by assumption.
      unfold answered, logged, set_res. cbn [res]. rewrite Hphrase, Hended. simpl.
      repeat split.
    + rewrite recover_development by assumption.
      rewrite stringify_error_body.
      unfold answered, logged, set_res. cbn [res]. rewrite Hphrase, Hended. simpl.
      repeat split.
Qed.

Lemma refused_head_outcome_witness :
  let result := requestListener false bad_header_handler (arrival development post_graphql) in
  let message := "Header name must be a valid HTTP token ["
                   ++ JSON.dquote ++ "x trace" ++ JSON.dquote ++ "]" in
  console (snd result) = [(log_message, JSError message (captureStack development message))]
  /\ (fst result = Returned tt
      /\ option_map ServerResponse.statusCode (ServerResponse.head (res (snd result)))
         = Some 500
      /\ option_map ServerResponse.statusMessage (ServerResponse.head (res (snd result)))
         = Some (fallback_phrase bad_header)
      /\ option_map ServerResponse.headers (ServerResponse.head (res (snd result)))
         = Some (Some json_headers)
      /\ ServerResponse.ended (res (snd result))
         = [Some (error_body message (captureStack development message))]).
Proof.
  apply (@refused_head_outcome unit false bad_header_handler development post_graphql
           "/graphql" "POST" "ok"
           ("Header name must be a valid HTTP token ["
              ++ JSON.dquote ++ "x trace" ++ JSON.dquote ++ "]")
           bad_header);
    reflexivity.
Defined.

(** X5: the production flag changes nothing but the error response.
    The log, the inbound stream and the handler invocations of a cycle
    are the same in both modes, and a cycle whose try block does not
    throw is the same altogether. *)
Theorem mode_only_changes_error_response
    {Context : Type} (handle : Request.t Context -> Script)
    (p : Process) (r : IncomingMessage.t) :
  let prod := requestListener true handle (arrival p r) in
  let dev := requestListener false handle (arrival p r) in
  console (snd prod) = console (snd dev)
  /\ req (snd prod) = req (snd dev)
  /\ handled (snd prod) = handled (snd dev)
  /\ ((forall e, fst (attempt handle (arrival p r)) <> Thrown e) -> prod = dev).
Proof.
  cbv zeta.
  destruct (listener_keeps_request handle p r true) as [Hreq1 Hhandled1].
  destruct (listener_keeps_request handle p r false) as [Hreq2 Hhandled2].
  rewrite Hreq1, Hreq2, Hhandled1, Hhandled2.
  destruct (attempt handle (arrival p r)) as [[[]|e|] w] eqn:E.
  - rewrite !listener_unfold, E. auto.
  - pose proof (listener_caught true handle p r E) as H1.
    pose proof (listener_caught false handle p r E) as H2.
    cbv zeta in H1, H2. destruct H1 as [H1 _]. destruct H2 as [H2 _].
    rewrite H1, H2. repeat split; auto.
    intros Hno. elim (Hno e). reflexivity.
  - rewrite !listener_unfold, E. auto.
Qed.



(** X9: the listener never writes a status code of its own making
    other than 500.  A head on the response either has status 500 and
    the headers of the mode's error response, or it is the head the
    handler resolved with (its status code wrapped into 32 bits), in
    which case the response was ended with the handler's body and the
    promise fulfilled. *)
Theorem written_status_origin
    {Context : Type} (isProd : bool) (handle : Request.t Context -> Script)
    (p : Process) (r : IncomingMessage.t) (h : ServerResponse.Head) :
  ServerResponse.head (res (snd (requestListener isProd handle (arrival p r)))) = Some h ->
  let result := requestListener isProd handle (arrival p r) in
  (ServerResponse.statusCode h = 500
   /\ ServerResponse.headers h = (if isProd then None else Some json_headers))
  \/ (exists u m text init,
        truthy (IncomingMessage.url r) = Some u
        /\ truthy (IncomingMessage.method r) = Some m
        /\ handler_settles handle u m r = Fulfilled (text, init)
        /\ ServerResponse.statusCode h = Number.toInt32 (ResponseInit.status init)
        /\ ServerResponse.statusMessage h
           = match ResponseInit.statusText init with
             | Some reason => ServerResponse.Given reason
             | None => ServerResponse.Standard (Number.toInt32 (ResponseInit.status init))
             end
        /\ ServerResponse.headers h = Some (ResponseInit.headers init)
        /\ ServerResponse.ended (res (snd result)) = [Some text]
        /\ fst result = Returned tt).
Proof.
  cbv zeta.
  destruct (attempt handle (arrival p r)) as [[[]|e|] w] eqn:E.
  - rewrite listener_unfold, E. simpl. intros Hh.
    destruct (attempt_returned_head handle p r E)
      as (u & m & text & init & Hu & Hm & Hs & Hhead & Hended).
    rewrite Hhead in Hh. inversion Hh. subst h. simpl.
    right. exists u, m, text, init. auto 10.
  - destruct (ServerResponse.poisoned (res w)) eqn:Hpoison.
    + destruct (attempt_thrown handle p r E) as (_ & Hhead & _).
      rewrite listener_unfold, E, recover_poisoned by assumption. simpl. discriminate.
    + destruct (listener_caught_clean isProd handle p r E Hpoison) as (Hstatus & Hheaders & _).
      intros Hh. rewrite Hh in Hstatus, Hheaders. simpl in Hstatus, Hheaders.
      left. split; congruence.
  - rewrite listener_unfold, E. simpl.
    destruct (attempt_suspended handle p r E) as [Hres _]. rewrite Hres. discriminate.
Qed.

Lemma written_status_origin_witness :
  let result := requestListener true (failing_handler JSNull) (arrival production post_graphql) in
  (ServerResponse.statusCode bare_500 = 500
   /\ ServerResponse.headers bare_500 = None)
  \/ (exists u m text init,
        truthy (IncomingMessage.url post_graphql) = Some u
        /\ truthy (IncomingMessage.method post_graphql) = Some m
        /\ handler_settles (failing_handler JSNull) u m post_graphql = Fulfilled (text, init)
        /\ ServerResponse.statusCode bare_500 = Number.toInt32 (ResponseInit.status init)
        /\ ServerResponse.statusMessage bare_500
           = match ResponseInit.statusText init with
             | Some reason => ServerResponse.Given reason
             | None => ServerResponse.Standard (Number.toInt32 (ResponseInit.status init))
             end
        /\ ServerResponse.headers bare_500 = Some (ResponseInit.headers init)
        /\ ServerResponse.ended (res (snd result)) = [Some text]
        /\ fst result = Returned tt).
Proof.
  apply (@written_status_origin unit true (failing_handler JSNull) production post_graphql
           bare_500).
  reflexivity.
Defined.

(** ** Several calls of the body accessor *)

Section BodyCalls.

Import IncomingMessage.

Lemma concat_app (a b : list string) :
  String.concat "" (a ++ b) = String.concat "" a ++ String.concat "" b.
Proof.
  induction a as [|c a IH].
  - reflexivity.
  - change ((c :: a) ++ b)%list with (c :: (a ++ b))%list.
    rewrite !concat_cons, IH, append_assoc. reflexivity.
Qed.

Lemma call_body_stream (n : nat) :
  forall r,
    call_body n r
    = with_stream r (pending r) (emitted r) (ended r)
        (subscriptions r ++ repeat {| buffer := ""; resolved := None |} n).
Proof.
  induction n as [|n IH]; intros r; simpl.
  - rewrite app_nil_r. destruct r; reflexivity.
  - rewrite IH. unfold with_stream. simpl. rewrite <- app_assoc. reflexivity.
Qed.

(** Part of a flowing stream's chunks emitted: the listeners hold them,
    the rest is still pending and the stream has not ended. *)
Lemma deliver_all_prefix (a : list string) :
  forall (b : list string) (r : t),
    pending r = (a ++ b)%list -> ended r = false -> subscriptions r <> [] ->
    deliver_all (length a) r
    = with_stream r b (emitted r ++ a) false (map (fed a) (subscriptions r)).
Proof.
  induction a as [|c a IH]; intros b r Hp He Hs.
  - simpl. rewrite app_nil_r. simpl in Hp. rewrite <- Hp, <- He.
    rewrite (map_ext _ (fun s => s) fed_nil), map_id. destruct r; reflexivity.
  - simpl. unfold deliver at 1, flowing. rewrite He, Hp.
    destruct (subscriptions r) as [|s0 subs] eqn:E; [congruence|]. simpl.
    rewrite (IH b); simpl; try reflexivity; try discriminate.
    unfold with_stream; simpl. rewrite <- app_assoc. simpl. f_equal.
    rewrite map_map, fed_cons. f_equal.
    apply map_ext. intros s. now rewrite fed_cons.
Qed.

End BodyCalls.

(** X7: any number of [body()] calls made in a row on a request whose
    body nobody listens to yet all resolve, once the stream is drained,
    to the same text: the concatenation of all chunks. *)
Theorem simultaneous_body_calls (n i : nat) (r : IncomingMessage.t) :
  IncomingMessage.subscriptions r = [] ->
  IncomingMessage.ended r = false ->
  (i < n)%nat ->
  IncomingMessage.promise (IncomingMessage.drain (call_body n r)) i
  = Some (String.concat "" (IncomingMessage.pending r)).
Proof.
  intros Hs He Hi. rewrite call_body_stream, Hs. simpl.
  rewrite drain_flowing; simpl.
  - unfold IncomingMessage.promise. simpl.
    rewrite nth_error_map, nth_error_repeat by exact Hi. reflexivity.
  - exact He.
  - destruct n; [lia | discriminate].
Qed.

Lemma simultaneous_body_calls_witness :
  IncomingMessage.promise (IncomingMessage.drain (call_body 3 post_graphql)) 2
  = Some (String.concat "" (IncomingMessage.pending post_graphql)).
Proof.
  apply (@simultaneous_body_calls 3 2 post_graphql); [reflexivity | reflexivity | lia].
Defined.

(** X8: a [body()] call made after the stream, flowing for an earlier
    call, has emitted some chunks misses exactly those chunks: it
    resolves to the concatenation of the chunks emitted after it, while
    the earlier call resolves to the whole body. *)
Theorem late_body_call_misses_chunks (r : IncomingMessage.t) (a b : list string) :
  IncomingMessage.subscriptions r = [] ->
  IncomingMessage.ended r = false ->
  IncomingMessage.pending r = (a ++ b)%list ->
  let first := body r in
  let later := IncomingMessage.deliver_all (length a) (snd first) in
  let second := body later in
  let drained := IncomingMessage.drain (snd second) in
  IncomingMessage.promise drained (fst first) = Some (String.concat "" (a ++ b))
  /\ IncomingMessage.promise drained (fst second) = Some (String.concat "" b).
Proof.
  intros Hs He Hp. cbv zeta.
  rewrite (deliver_all_prefix a b (snd (body r))); simpl; auto.
  2:{ rewrite Hs. discriminate. }
  rewrite Hs. simpl.
  rewrite drain_flowing; simpl; try reflexivity; try discriminate.
  unfold IncomingMessage.promise. simpl.
  rewrite concat_app. split; reflexivity.
Qed.

Lemma late_body_call_misses_chunks_witness :
  let first := body post_graphql in
  let later := IncomingMessage.deliver_all (length ["{__type"]) (snd first) in
  let second := body later in
  let drained := IncomingMessage.drain (snd second) in
  IncomingMessage.promise drained (fst first) = Some (String.concat "" (["{__type"] ++ ["name}"]))
  /\ IncomingMessage.promise drained (fst second) = Some (String.concat "" ["name}"]).
Proof.
  apply (@late_body_call_misses_chunks post_graphql ["{__type"] ["name}"]); reflexivity.
Defined.

(** X10: whatever the handler throws or rejects with reaches the log
    unchanged, once, under the fixed message, in both modes and also
    when the value cannot be serialised for the response; the head
    written is a 500. *)
Theorem handler_fault_logged_verbatim
    {Context : Type} (isProd : bool) (handle : Request.t Context -> Script)
    (p : Process) (r : IncomingMessage.t) (u m : string) (e : JSValue) :
  truthy (IncomingMessage.url r) = Some u ->
  truthy (IncomingMessage.method r) = Some m ->
  handler_settles handle u m r = Rejected e ->
  let result := requestListener isProd handle (arrival p r) in
  console (snd result) = [(log_message, e)]
  /\ option_map ServerResponse.statusCode (ServerResponse.head (res (snd result))) = Some 500.
Proof.
  intros Hu Hm H. cbv zeta.
  destruct (attempt_handler_fault handle p r Hu Hm H) as [w [E Hfresh]].
  pose proof (listener_caught isProd handle p r E) as Hcaught. cbv zeta in Hcaught.
  destruct Hcaught as (Hcon & _).
  assert (ServerResponse.poisoned (res w) = false) as Hclean by (rewrite Hfresh; reflexivity).
  destruct (listener_caught_clean isProd handle p r E Hclean) as (Hstatus & _).
  split; assumption.
Qed.

Lemma handler_fault_logged_verbatim_witness :
  let result := requestListener false (failing_handler (JSBigInt 1))
                  (arrival development post_graphql) in
  console (snd result) = [(log_message, JSBigInt 1)]
  /\ option_map ServerResponse.statusCode (ServerResponse.head (res (snd result))) = Some 500.
Proof.
  apply (@handler_fault_logged_verbatim unit false (failing_handler (JSBigInt 1))
           development post_graphql "/graphql" "POST" (JSBigInt 1));
    reflexivity.
Defined.
